(** * gpu-monitor: the sampling, history and alerting core

    A shallow embedding of [utils.get_nvidia_stats] and of the tick path of
    [GPU_Monitor_App] ([update_stats], [update_process_tables],
    [check_alerts], [update_dashboard_graphs]), followed by the properties
    of the design document that can be settled on it.

    Conventions of the embedding.
    - Python numbers (the [int] readings of NVML, the [float] thresholds and
      the [float] quotients) are exact rationals [Q]; rounding of binary
      floating point is not modelled.
    - A Python dictionary with a fixed set of string keys is a record; each
      record lives in a module of its own so that the keys keep their
      names ([Stat.temperature], [Thresholds.temperature], ...).
    - An exception is a value of [exn]; code that can raise returns
      [result].  [try ... except pynvml.NVMLError] is [try_nvml].
    - The widgets of the presentation layer are write-only sinks; what the
      tick hands to them is recorded in a trace of [event]s. *)

From Stdlib Require Import QArith Lqa ZArith String Bool Permutation Sorted.
From stdpp Require Import list.

Local Open Scope Q_scope.

(** ** Exceptions *)

Inductive exn : Type :=
| NVMLError
| ZeroDivisionError
| TypeError
| IndexError.

Inductive result (A : Type) : Type :=
| Ok (a : A)
| Raise (e : exn).
Arguments Ok {A} a.
Arguments Raise {A} e.

(** Sequencing of statements that can raise: [x ← r; k] runs [k] on the
    value of [r] and stops at the first exception. *)
#[global] Instance result_bind : MBind result :=
  fun A B (k : A -> result B) (r : result A) =>
    match r with
    | Ok a => k a
    | Raise e => Raise e
    end.

(** [try: body except pynvml.NVMLError: handler].  Any other exception
    leaves the [try] statement. *)
Definition try_nvml {A : Type} (body : result A) (handler : A) : result A :=
  match body with
  | Ok a => Ok a
  | Raise NVMLError => Ok handler
  | Raise e => Raise e
  end.

(** ** The telemetry source (pynvml)

    A query of pynvml either returns or raises [NVMLError]; its outcome
    is an [option]. *)

Definition nvml_call {A : Type} (outcome : option A) : result A :=
  match outcome with
  | Some a => Ok a
  | None => Raise NVMLError
  end.

Record mem_info : Type := { total : Z; used : Z }.
Record util_rates : Type := { gpu : Z; memory : Z }.
(** [usedGpuMemory] is [None] in pynvml when the driver reports no value. *)
Record nvml_process : Type := { nvml_pid : Z; usedGpuMemory : option Z }.

(** What the driver answers for one device handle. *)
Record handle : Type := {
  nvmlDeviceGetName : option string;
  nvmlDeviceGetMemoryInfo : option mem_info;
  nvmlDeviceGetUtilizationRates : option util_rates;
  nvmlDeviceGetTemperature : option Z;
  nvmlDeviceGetPowerUsage : option Z;
  nvmlDeviceGetEnforcedPowerLimit : option Z;
  nvmlDeviceGetFanSpeed : option Z;
  nvmlDeviceGetClockInfo : option Z;
  nvmlDeviceGetComputeRunningProcesses : option (list nvml_process);
  nvmlDeviceGetGraphicsRunningProcesses : option (list nvml_process)
}.

(** The world a tick reads: the driver and the process-name lookup.
    [get_process_name] ends in a bare [except] and always returns a
    string. *)
Record world : Type := {
  nvmlDeviceGetHandleByIndex : nat -> option handle;
  get_process_name : Z -> string
}.

(** ** Samples *)

Inductive proc_type : Type := C | G.

Module Proc.
Record t : Type := {
  pid : Z;
  used_memory : Q;
  type : proc_type;
  name : string
}.
End Proc.

Module Stat.
Record t : Type := {
  gpu_index : nat;
  name : string;
  memory_total : Q;
  memory_used : Q;
  memory_utilization : Q;
  utilization : Q;
  memory_utilization_rate : Q;
  temperature : Q;
  power_draw : Q;
  power_limit : Q;
  fan_speed : Q;
  clock_speed : Q;
  processes : list Proc.t
}.
End Stat.

(** [1024 ** 2] *)
Definition MiB : Q := inject_Z (1024 ^ 2).

(** [x / y] of Python on numbers. *)
Definition py_div (x y : Q) : result Q :=
  if Qeq_bool y 0 then Raise ZeroDivisionError else Ok (x / y).

(** The memory group, lines 57-63 of utils.py. *)
Definition memory_group (h : handle) : result (Q * Q * Q) :=
  try_nvml
    (mem_info ← nvml_call (nvmlDeviceGetMemoryInfo h);
     let memory_total := inject_Z (total mem_info) / MiB in
     let memory_used := inject_Z (used mem_info) / MiB in
     ratio ← py_div (inject_Z (used mem_info)) (inject_Z (total mem_info));
     Ok (memory_total, memory_used, ratio * 100))
    (0, 0, 0).

Definition utilization_group (h : handle) : result (Q * Q) :=
  try_nvml
    (util ← nvml_call (nvmlDeviceGetUtilizationRates h);
     Ok (inject_Z (gpu util), inject_Z (memory util)))
    (0, 0).

Definition temperature_group (h : handle) : result Q :=
  try_nvml
    (t ← nvml_call (nvmlDeviceGetTemperature h); Ok (inject_Z t))
    0.

Definition power_group (h : handle) : result (Q * Q) :=
  try_nvml
    (usage ← nvml_call (nvmlDeviceGetPowerUsage h);
     let power_draw := inject_Z usage / 1000 in
     limit ← nvml_call (nvmlDeviceGetEnforcedPowerLimit h);
     let power_limit := inject_Z limit / 1000 in
     Ok (power_draw, power_limit))
    (0, 0).

Definition fan_group (h : handle) : result Q :=
  try_nvml
    (f ← nvml_call (nvmlDeviceGetFanSpeed h); Ok (inject_Z f))
    0.

Definition clock_group (h : handle) : result Q :=
  try_nvml
    (c ← nvml_call (nvmlDeviceGetClockInfo h); Ok (inject_Z c))
    0.

Definition name_group (h : handle) : string :=
  match nvmlDeviceGetName h with
  | Some name => name
  | None => "Unknown"%string
  end.

(** The body of [for proc in procs: processes.append({...})]; the entry
    has no name yet.  [None / (1024 ** 2)] raises [TypeError]. *)
Fixpoint append_procs (ty : proc_type) (procs : list nvml_process)
    (processes : list Proc.t) : result (list Proc.t) :=
  match procs with
  | [] => Ok processes
  | proc :: rest =>
      match usedGpuMemory proc with
      | None => Raise TypeError
      | Some m =>
          append_procs ty rest
            (processes ++
             [{| Proc.pid := nvml_pid proc;
                 Proc.used_memory := inject_Z m / MiB;
                 Proc.type := ty;
                 Proc.name := ""%string |}])
      end
  end.

(** One of the two [try] statements of the process group: on [NVMLError]
    the list is left as it was ([pass]). *)
Definition process_query (ty : proc_type)
    (outcome : option (list nvml_process)) (processes : list Proc.t)
  : result (list Proc.t) :=
  try_nvml
    (procs ← nvml_call outcome; append_procs ty procs processes)
    processes.

Definition set_name (w : world) (proc : Proc.t) : Proc.t :=
  {| Proc.pid := Proc.pid proc;
     Proc.used_memory := Proc.used_memory proc;
     Proc.type := Proc.type proc;
     Proc.name := get_process_name w (Proc.pid proc) |}.

Definition processes_group (w : world) (h : handle) : result (list Proc.t) :=
  processes ← process_query C (nvmlDeviceGetComputeRunningProcesses h) [];
  processes ← process_query G (nvmlDeviceGetGraphicsRunningProcesses h) processes;
  Ok (map (set_name w) processes).

(** The body of the loop of [get_nvidia_stats] for index [i], from
    [stat = {'gpu_index': i}] on, [h] being the handle. *)
Definition read_handle (w : world) (i : nat) (h : handle) : result Stat.t :=
  let name := name_group h in
  '(memory_total, memory_used, memory_utilization) ← memory_group h;
  '(utilization, memory_utilization_rate) ← utilization_group h;
  temperature ← temperature_group h;
  '(power_draw, power_limit) ← power_group h;
  fan_speed ← fan_group h;
  clock_speed ← clock_group h;
  processes ← processes_group w h;
  Ok {| Stat.gpu_index := i;
        Stat.name := name;
        Stat.memory_total := memory_total;
        Stat.memory_used := memory_used;
        Stat.memory_utilization := memory_utilization;
        Stat.utilization := utilization;
        Stat.memory_utilization_rate := memory_utilization_rate;
        Stat.temperature := temperature;
        Stat.power_draw := power_draw;
        Stat.power_limit := power_limit;
        Stat.fan_speed := fan_speed;
        Stat.clock_speed := clock_speed;
        Stat.processes := processes |}.

(** The whole body: the handle is asked for outside any [try]. *)
Definition device_stat (w : world) (i : nat) : result Stat.t :=
  h ← nvml_call (nvmlDeviceGetHandleByIndex w i);
  read_handle w i h.

Fixpoint stats_loop (w : world) (indices : list nat) : result (list Stat.t) :=
  match indices with
  | [] => Ok []
  | i :: rest =>
      stat ← device_stat w i;
      stats ← stats_loop w rest;
      Ok (stat :: stats)
  end.

(** [get_nvidia_stats(device_count)]: [for i in range(device_count)]. *)
Definition get_nvidia_stats (w : world) (device_count : nat)
  : result (list Stat.t) :=
  stats_loop w (seq 0 device_count).

(** ** Configuration and alert state of the application *)

Inductive metric : Type :=
| Temperature
| Utilization
| MemoryUtilization
| PowerDraw.

Module Thresholds.
Record t : Type := {
  temperature : Q;
  utilization : Q;
  memory_utilization : Q;
  power_draw : Q
}.

(** [self.thresholds[key]] *)
Definition get (key : metric) (s : t) : Q :=
  match key with
  | Temperature => temperature s
  | Utilization => utilization s
  | MemoryUtilization => memory_utilization s
  | PowerDraw => power_draw s
  end.
End Thresholds.

(** [self.alert_states]: one flag per metric name. *)
Module AlertStates.
Record t : Type := {
  temperature : bool;
  utilization : bool;
  memory_utilization : bool;
  power_draw : bool
}.

(** [self.alert_states[key] = v] *)
Definition set (key : metric) (v : bool) (s : t) : t :=
  match key with
  | Temperature =>
      {| temperature := v; utilization := utilization s;
         memory_utilization := memory_utilization s; power_draw := power_draw s |}
  | Utilization =>
      {| temperature := temperature s; utilization := v;
         memory_utilization := memory_utilization s; power_draw := power_draw s |}
  | MemoryUtilization =>
      {| temperature := temperature s; utilization := utilization s;
         memory_utilization := v; power_draw := power_draw s |}
  | PowerDraw =>
      {| temperature := temperature s; utilization := utilization s;
         memory_utilization := memory_utilization s; power_draw := v |}
  end.

Definition get (key : metric) (s : t) : bool :=
  match key with
  | Temperature => temperature s
  | Utilization => utilization s
  | MemoryUtilization => memory_utilization s
  | PowerDraw => power_draw s
  end.

(** The dictionary literal of [__init__], lines 47-52. *)
Definition init : t :=
  {| temperature := false; utilization := false;
     memory_utilization := false; power_draw := false |}.
End AlertStates.

(** The text of an alert names the device, the metric, the value and the
    threshold; the record keeps those four and leaves the formatting out. *)
Record alert : Type := {
  alert_gpu : nat;
  alert_metric : metric;
  alert_value : Q;
  alert_threshold : Q
}.

(** [x > y] and [x <= y] on numbers. *)
Definition py_gt (x y : Q) : bool := negb (Qle_bool x y).
Definition py_le (x y : Q) : bool := Qle_bool x y.

(** The body of [for stat in stats] in [check_alerts], up to the
    [# Trigger alerts] loop: the four [if ... elif ...] statements in the
    order of the source, threading [self.alert_states] and
    [alerts_triggered]. *)
Definition check_stat (thresholds : Thresholds.t) (stat : Stat.t)
    (alert_states : AlertStates.t) : AlertStates.t * list alert :=
  let alerts_triggered : list alert := [] in
  let gpu_index := Stat.gpu_index stat in
  (* Temperature Alert *)
  let temp := Stat.temperature stat in
  let '(alert_states, alerts_triggered) :=
    if py_gt temp (Thresholds.temperature thresholds)
       && negb (AlertStates.temperature alert_states)
    then (AlertStates.set Temperature true alert_states,
          alerts_triggered ++
          [{| alert_gpu := gpu_index; alert_metric := Temperature;
              alert_value := temp;
              alert_threshold := Thresholds.temperature thresholds |}])
    else if py_le temp (Thresholds.temperature thresholds)
    then (AlertStates.set Temperature false alert_states, alerts_triggered)
    else (alert_states, alerts_triggered) in
  (* Utilization Alert *)
  let util := Stat.utilization stat in
  let '(alert_states, alerts_triggered) :=
    if py_gt util (Thresholds.utilization thresholds)
       && negb (AlertStates.utilization alert_states)
    then (AlertStates.set Utilization true alert_states,
          alerts_triggered ++
          [{| alert_gpu := gpu_index; alert_metric := Utilization;
              alert_value := util;
              alert_threshold := Thresholds.utilization thresholds |}])
    else if py_le util (Thresholds.utilization thresholds)
    then (AlertStates.set Utilization false alert_states, alerts_triggered)
    else (alert_states, alerts_triggered) in
  (* Memory Utilization Alert *)
  let mem_util := Stat.memory_utilization stat in
  let '(alert_states, alerts_triggered) :=
    if py_gt mem_util (Thresholds.memory_utilization thresholds)
       && negb (AlertStates.memory_utilization alert_states)
    then (AlertStates.set MemoryUtilization true alert_states,
          alerts_triggered ++
          [{| alert_gpu := gpu_index; alert_metric := MemoryUtilization;
              alert_value := mem_util;
              alert_threshold := Thresholds.memory_utilization thresholds |}])
    else if py_le mem_util (Thresholds.memory_utilization thresholds)
    then (AlertStates.set MemoryUtilization false alert_states, alerts_triggered)
    else (alert_states, alerts_triggered) in
  (* Power Draw Alert *)
  let power := Stat.power_draw stat in
  let '(alert_states, alerts_triggered) :=
    if py_gt power (Thresholds.power_draw thresholds)
       && negb (AlertStates.power_draw alert_states)
    then (AlertStates.set PowerDraw true alert_states,
          alerts_triggered ++
          [{| alert_gpu := gpu_index; alert_metric := PowerDraw;
              alert_value := power;
              alert_threshold := Thresholds.power_draw thresholds |}])
    else if py_le power (Thresholds.power_draw thresholds)
    then (AlertStates.set PowerDraw false alert_states, alerts_triggered)
    else (alert_states, alerts_triggered) in
  (alert_states, alerts_triggered).

(** [check_alerts(stats)] without its sinks: the flags after the loop and
    the alerts triggered, device after device. *)
Fixpoint check_alerts (thresholds : Thresholds.t) (stats : list Stat.t)
    (alert_states : AlertStates.t) : AlertStates.t * list alert :=
  match stats with
  | [] => (alert_states, [])
  | stat :: rest =>
      let '(alert_states, alerts_triggered) :=
        check_stat thresholds stat alert_states in
      let '(alert_states, later) := check_alerts thresholds rest alert_states in
      (alert_states, alerts_triggered ++ later)
  end.

(** ** Process ranking *)

Section Sorted_reverse.
Context {A : Type} (key : A -> Q).

(** [x] goes in front of the first element whose key is not larger
    than its own, so it stays ahead of the equal keys that followed it
    in the input. *)
Fixpoint insert_reverse (x : A) (l : list A) : list A :=
  match l with
  | [] => [x]
  | y :: l' =>
      if Qle_bool (key y) (key x) then x :: y :: l'
      else y :: insert_reverse x l'
  end.

(** [sorted(l, key=key, reverse=True)].  Python's sort is stable, and
    with [reverse=True] it still keeps equal keys in input order; a
    stable sort is a function of its input alone, so the insertion
    sort below returns the list Python returns. *)
Fixpoint sorted_reverse (l : list A) : list A :=
  match l with
  | [] => []
  | x :: l' => insert_reverse x (sorted_reverse l')
  end.
End Sorted_reverse.

(** Lines 541-543 of [update_process_tables]. *)
Definition display_processes (processes : list Proc.t) : list Proc.t :=
  let processes := sorted_reverse Proc.used_memory processes in
  take 20 processes.

(** A row of a process table as it is filled in. *)
Inductive process_row : Type :=
| ProcRow (pid : Z) (proc_type_full : string) (proc_name : string) (mem_usage : Q)
| NoProcesses.

Definition proc_type_full (ty : proc_type) : string :=
  match ty with
  | G => "Graphics"%string
  | C => "Compute"%string
  end.

Definition table_rows (display : list Proc.t) : list process_row :=
  match display with
  | [] => [NoProcesses]
  | _ =>
      map (fun proc =>
             ProcRow (Proc.pid proc) (proc_type_full (Proc.type proc))
                     (substring 0 50 (Proc.name proc)) (Proc.used_memory proc))
          display
  end.

(** ** History buffers *)

(** [deque.append] on a [deque(maxlen=maxlen)] held as the list of its
    items, oldest first: the item is added on the right and, when that
    makes the deque longer than [maxlen], one item is dropped on the
    left. *)
Definition deque_append {A : Type} (maxlen : nat) (d : list A) (x : A) : list A :=
  let d' := d ++ [x] in
  if (maxlen <? length d')%nat then drop 1 d' else d'.

Definition buffer_size : nat := 60.

Module Buffer.
Record t : Type := {
  time : list nat;
  temperature : list Q;
  utilization : list Q;
  memory_utilization : list Q;
  power_draw : list Q
}.

(** The five empty deques of [__init__], lines 75-81. *)
Definition init : t :=
  {| time := []; temperature := []; utilization := [];
     memory_utilization := []; power_draw := [] |}.

Definition series (key : metric) (b : t) : list Q :=
  match key with
  | Temperature => temperature b
  | Utilization => utilization b
  | MemoryUtilization => memory_utilization b
  | PowerDraw => power_draw b
  end.
End Buffer.

Module StatMetric.
(** The value of a sample under one of the four alert and graph keys. *)
Definition get (key : metric) (stat : Stat.t) : Q :=
  match key with
  | Temperature => Stat.temperature stat
  | Utilization => Stat.utilization stat
  | MemoryUtilization => Stat.memory_utilization stat
  | PowerDraw => Stat.power_draw stat
  end.
End StatMetric.

(** ** The tick *)

(** What a tick does that can be seen from outside its functions, in the
    order in which it is done: the sample it took, what it wrote to the
    widgets and the alert sinks, and its appends to the history
    buffers. *)
Inductive event : Type :=
| Sampled (stats : list Stat.t)       (* get_nvidia_stats returned stats *)
| StatsTable (stats : list Stat.t)    (* the rows set by update_stats_table *)
| ProcessTable (i : nat) (rows : list process_row)
                                      (* the rows set in the table of tab i *)
| Notification (a : alert)            (* print and send_desktop_notification *)
| Sound                               (* play_sound_alert *)
| Append (i : nat) (current_time : nat) (stat : Stat.t)
                                      (* the five appends to data_buffers[i] *)
| SetData (i : nat) (buffer : Buffer.t)
                                      (* setData on the four curves of i *)
| ErrorPrinted (e : exn).             (* the except branch of update_stats *)

Record GPU_Monitor_App : Type := {
  thresholds : Thresholds.t;
  sound_alert : bool;
  alert_states : AlertStates.t;
  device_count : nat;
  data_buffers : list Buffer.t
}.

(** The core state after [__init__]. *)
Definition init (thresholds : Thresholds.t) (sound_alert : bool)
    (device_count : nat) : GPU_Monitor_App :=
  {| thresholds := thresholds;
     sound_alert := sound_alert;
     alert_states := AlertStates.init;
     device_count := device_count;
     data_buffers := replicate device_count Buffer.init |}.

Definition update_stats_table (stats : list Stat.t) : list event :=
  [StatsTable stats].

(** [update_process_tables]: [self.process_tabs] has one tab per device
    ([init_processes_tab]), so [self.process_tabs.count()] is
    [device_count]. *)
Fixpoint process_tables_loop (tabs : nat) (i : nat) (stats : list Stat.t)
  : list event :=
  match stats with
  | [] => []
  | stat :: rest =>
      if (tabs <=? i)%nat then process_tables_loop tabs (S i) rest
      else
        ProcessTable i (table_rows (display_processes (Stat.processes stat)))
        :: process_tables_loop tabs (S i) rest
  end.

Definition update_process_tables (self : GPU_Monitor_App) (stats : list Stat.t) : list event :=
  process_tables_loop (device_count self) 0 stats.

(** The [# Trigger alerts] loop of [check_alerts]. *)
Definition trigger_alerts (sound_alert : bool) (alerts_triggered : list alert)
  : list event :=
  flat_map (fun a => Notification a :: (if sound_alert then [Sound] else []))
           alerts_triggered.

(** [check_alerts] with its sinks.  The sinks are reached at the end of
    each device's turn; they do not touch the flags, so the trace is the
    one of [check_alerts] device by device. *)
Fixpoint check_alerts_events (thresholds : Thresholds.t) (sound_alert : bool)
    (stats : list Stat.t) (alert_states : AlertStates.t)
  : AlertStates.t * list event :=
  match stats with
  | [] => (alert_states, [])
  | stat :: rest =>
      let '(alert_states, alerts_triggered) :=
        check_stat thresholds stat alert_states in
      let evs := trigger_alerts sound_alert alerts_triggered in
      let '(alert_states, later) :=
        check_alerts_events thresholds sound_alert rest alert_states in
      (alert_states, evs ++ later)
  end.

(** One turn of the loop of [update_dashboard_graphs] on [buffer]. *)
Definition append_sample (current_time : nat) (stat : Stat.t) (buffer : Buffer.t)
  : Buffer.t :=
  {| Buffer.time := deque_append buffer_size (Buffer.time buffer) current_time;
     Buffer.temperature :=
       deque_append buffer_size (Buffer.temperature buffer) (Stat.temperature stat);
     Buffer.utilization :=
       deque_append buffer_size (Buffer.utilization buffer) (Stat.utilization stat);
     Buffer.memory_utilization :=
       deque_append buffer_size (Buffer.memory_utilization buffer)
                    (Stat.memory_utilization stat);
     Buffer.power_draw :=
       deque_append buffer_size (Buffer.power_draw buffer) (Stat.power_draw stat) |}.

(** [for i, stat in enumerate(stats)]: [self.data_buffers[i]] raises
    [IndexError] past the end of the list; what was appended before
    stays. *)
Fixpoint graphs_loop (current_time : nat) (i : nat) (stats : list Stat.t)
    (data_buffers : list Buffer.t) : list Buffer.t * list event * option exn :=
  match stats with
  | [] => (data_buffers, [], None)
  | stat :: rest =>
      match data_buffers !! i with
      | None => (data_buffers, [], Some IndexError)
      | Some buffer =>
          let buffer := append_sample current_time stat buffer in
          let '(data_buffers, evs, raised) :=
            graphs_loop current_time (S i) rest (<[i := buffer]> data_buffers) in
          (data_buffers, Append i current_time stat :: SetData i buffer :: evs, raised)
      end
  end.

Definition update_dashboard_graphs (stats : list Stat.t)
    (data_buffers : list Buffer.t) : list Buffer.t * list event * option exn :=
  match data_buffers !! 0%nat with
  | None => (data_buffers, [], Some IndexError)
  | Some first =>
      let current_time := length (Buffer.time first) in
      graphs_loop current_time 0 stats data_buffers
  end.

Definition print_error (raised : option exn) : list event :=
  match raised with
  | Some e => [ErrorPrinted e]
  | None => []
  end.

(** [update_stats]: one tick.  The four calls are in the order of lines
    580-584; an exception of any of them is printed and ends the tick. *)
Definition update_stats (w : world) (self : GPU_Monitor_App) : GPU_Monitor_App * list event :=
  match get_nvidia_stats w (device_count self) with
  | Raise e => (self, [ErrorPrinted e])
  | Ok stats =>
      let table_evs := update_stats_table stats in
      let process_evs := update_process_tables self stats in
      let '(alert_states, alert_evs) :=
        check_alerts_events (thresholds self) (sound_alert self) stats
                            (alert_states self) in
      let '(data_buffers, graph_evs, raised) :=
        update_dashboard_graphs stats (data_buffers self) in
      ({| thresholds := thresholds self;
          sound_alert := sound_alert self;
          alert_states := alert_states;
          device_count := device_count self;
          data_buffers := data_buffers |},
       Sampled stats :: table_evs ++ process_evs ++ alert_evs ++ graph_evs
       ++ print_error raised)
  end.

(** The timer: one tick per world, in order. *)
Fixpoint run (ws : list world) (self : GPU_Monitor_App)
  : GPU_Monitor_App * list (list event) :=
  match ws with
  | [] => (self, [])
  | w :: rest =>
      let '(self, evs) := update_stats w self in
      let '(self, later) := run rest self in
      (self, evs :: later)
  end.

(** ** Runs of the components over several ticks *)

(** The alert engine alone: [check_alerts] on the sample of each tick,
    flags carried from tick to tick; the alerts of each tick. *)
Fixpoint alert_ticks (thresholds : Thresholds.t) (ticks : list (list Stat.t))
    (alert_states : AlertStates.t) : list (list alert) :=
  match ticks with
  | [] => []
  | stats :: rest =>
      let '(alert_states, alerts) := check_alerts thresholds stats alert_states in
      alerts :: alert_ticks thresholds rest alert_states
  end.

(** The history store alone: [update_dashboard_graphs] on the sample of
    each tick.  An [IndexError] ends that tick only ([update_stats]
    prints it), the buffers stay as they are at that point. *)
Fixpoint graph_ticks (ticks : list (list Stat.t)) (data_buffers : list Buffer.t)
  : list Buffer.t :=
  match ticks with
  | [] => data_buffers
  | stats :: rest =>
      graph_ticks rest (update_dashboard_graphs stats data_buffers).1.1
  end.

(** * Vocabulary of the statements *)

#[global] Instance metric_eq_dec : EqDecision metric.
Proof. solve_decision. Defined.

(** A sample with the value under [key] replaced. *)
Definition with_value (key : metric) (v : Q) (s : Stat.t) : Stat.t :=
  {| Stat.gpu_index := Stat.gpu_index s;
     Stat.name := Stat.name s;
     Stat.memory_total := Stat.memory_total s;
     Stat.memory_used := Stat.memory_used s;
     Stat.memory_utilization :=
       match key with MemoryUtilization => v | _ => Stat.memory_utilization s end;
     Stat.utilization :=
       match key with Utilization => v | _ => Stat.utilization s end;
     Stat.memory_utilization_rate := Stat.memory_utilization_rate s;
     Stat.temperature :=
       match key with Temperature => v | _ => Stat.temperature s end;
     Stat.power_draw :=
       match key with PowerDraw => v | _ => Stat.power_draw s end;
     Stat.power_limit := Stat.power_limit s;
     Stat.fan_speed := Stat.fan_speed s;
     Stat.clock_speed := Stat.clock_speed s;
     Stat.processes := Stat.processes s |}.

(** A sample with another [memory_utilization_rate]. *)
Definition with_rate (r : Q) (s : Stat.t) : Stat.t :=
  {| Stat.gpu_index := Stat.gpu_index s;
     Stat.name := Stat.name s;
     Stat.memory_total := Stat.memory_total s;
     Stat.memory_used := Stat.memory_used s;
     Stat.memory_utilization := Stat.memory_utilization s;
     Stat.utilization := Stat.utilization s;
     Stat.memory_utilization_rate := r;
     Stat.temperature := Stat.temperature s;
     Stat.power_draw := Stat.power_draw s;
     Stat.power_limit := Stat.power_limit s;
     Stat.fan_speed := Stat.fan_speed s;
     Stat.clock_speed := Stat.clock_speed s;
     Stat.processes := Stat.processes s |}.

(** The alerts of a list that are about [key]. *)
Definition about (key : metric) (alerts : list alert) : list alert :=
  filter (fun a => alert_metric a = key) alerts.

(** One [if ... elif ...] statement of [check_alerts] seen alone: the
    new flag and the alert it appends, if any. *)
Definition hysteresis (gpu_index : nat) (key : metric) (value threshold : Q)
    (armed : bool) : bool * list alert :=
  if py_gt value threshold && negb armed
  then (true, [{| alert_gpu := gpu_index; alert_metric := key;
                  alert_value := value; alert_threshold := threshold |}])
  else if py_le value threshold then (false, [])
  else (armed, []).

(** ** One device, one metric *)

(** The flag and the alerts of one key while single samples go by. *)
Fixpoint single_run (key : metric) (threshold : Q) (samples : list Stat.t)
    (armed : bool) : list (list alert) :=
  match samples with
  | [] => []
  | stat :: rest =>
      let step :=
        hysteresis (Stat.gpu_index stat) key (StatMetric.get key stat)
                   threshold armed in
      step.2 :: single_run key threshold rest step.1
  end.

(** ** Worlds and samples used as concrete inputs *)

(** The defaults of [parse_arguments]. *)
Definition default_thresholds : Thresholds.t :=
  {| Thresholds.temperature := 80; Thresholds.utilization := 90;
     Thresholds.memory_utilization := 90; Thresholds.power_draw := 250 |}.

(** An idle device: every reading 0, no process. *)
Definition idle (i : nat) : Stat.t :=
  {| Stat.gpu_index := i; Stat.name := "GPU"%string;
     Stat.memory_total := 0; Stat.memory_used := 0; Stat.memory_utilization := 0;
     Stat.utilization := 0; Stat.memory_utilization_rate := 0;
     Stat.temperature := 0; Stat.power_draw := 0; Stat.power_limit := 0;
     Stat.fan_speed := 0; Stat.clock_speed := 0; Stat.processes := [] |}.

(** A handle all of whose queries answer. *)
Definition healthy : handle :=
  {| nvmlDeviceGetName := Some "GPU"%string;
     nvmlDeviceGetMemoryInfo := Some {| total := 8192 * 1024 ^ 2; used := 2048 * 1024 ^ 2 |};
     nvmlDeviceGetUtilizationRates := Some {| gpu := 40; memory := 15 |};
     nvmlDeviceGetTemperature := Some 65%Z;
     nvmlDeviceGetPowerUsage := Some 120000%Z;
     nvmlDeviceGetEnforcedPowerLimit := Some 250000%Z;
     nvmlDeviceGetFanSpeed := Some 30%Z;
     nvmlDeviceGetClockInfo := Some 1500%Z;
     nvmlDeviceGetComputeRunningProcesses :=
       Some [{| nvml_pid := 4242; usedGpuMemory := Some (512 * 1024 ^ 2)%Z |}];
     nvmlDeviceGetGraphicsRunningProcesses :=
       Some [{| nvml_pid := 17; usedGpuMemory := Some (64 * 1024 ^ 2)%Z |}] |}.

(** The driver answering with the handles of a list, in index order. *)
Definition driver (handles : list handle) : world :=
  {| nvmlDeviceGetHandleByIndex := fun i => handles !! i;
     get_process_name := fun _ => "python"%string |}.

(** A handle with another outcome of the temperature query. *)
Definition with_temperature (outcome : option Z) (h : handle) : handle :=
  {| nvmlDeviceGetName := nvmlDeviceGetName h;
     nvmlDeviceGetMemoryInfo := nvmlDeviceGetMemoryInfo h;
     nvmlDeviceGetUtilizationRates := nvmlDeviceGetUtilizationRates h;
     nvmlDeviceGetTemperature := outcome;
     nvmlDeviceGetPowerUsage := nvmlDeviceGetPowerUsage h;
     nvmlDeviceGetEnforcedPowerLimit := nvmlDeviceGetEnforcedPowerLimit h;
     nvmlDeviceGetFanSpeed := nvmlDeviceGetFanSpeed h;
     nvmlDeviceGetClockInfo := nvmlDeviceGetClockInfo h;
     nvmlDeviceGetComputeRunningProcesses := nvmlDeviceGetComputeRunningProcesses h;
     nvmlDeviceGetGraphicsRunningProcesses := nvmlDeviceGetGraphicsRunningProcesses h |}.

(** A handle with another outcome of the memory query. *)
Definition with_memory (outcome : option mem_info) (h : handle) : handle :=
  {| nvmlDeviceGetName := nvmlDeviceGetName h;
     nvmlDeviceGetMemoryInfo := outcome;
     nvmlDeviceGetUtilizationRates := nvmlDeviceGetUtilizationRates h;
     nvmlDeviceGetTemperature := nvmlDeviceGetTemperature h;
     nvmlDeviceGetPowerUsage := nvmlDeviceGetPowerUsage h;
     nvmlDeviceGetEnforcedPowerLimit := nvmlDeviceGetEnforcedPowerLimit h;
     nvmlDeviceGetFanSpeed := nvmlDeviceGetFanSpeed h;
     nvmlDeviceGetClockInfo := nvmlDeviceGetClockInfo h;
     nvmlDeviceGetComputeRunningProcesses := nvmlDeviceGetComputeRunningProcesses h;
     nvmlDeviceGetGraphicsRunningProcesses := nvmlDeviceGetGraphicsRunningProcesses h |}.

(** The world in which device [d] answers as [h]. *)
Definition set_handle (d : nat) (h : handle) (w : world) : world :=
  {| nvmlDeviceGetHandleByIndex :=
       fun i => if decide (i = d) then Some h else nvmlDeviceGetHandleByIndex w i;
     get_process_name := get_process_name w |}.

(** A device whose memory query answers with a total of 0 bytes. *)
Definition no_memory : handle :=
  with_memory (Some {| total := 0; used := 0 |}) healthy.

(** ** The order of a tick *)

(** The stages of a tick as the design document numbers them: sample,
    history, ranking, alerts, presentation. *)
Definition documented_stage (e : event) : nat :=
  match e with
  | Sampled _ => 0
  | Append _ _ _ => 1
  | ProcessTable _ _ => 2
  | Notification _ | Sound => 3
  | StatsTable _ | SetData _ _ => 4
  | ErrorPrinted _ => 5
  end.

(** The stages in the order of the calls of [update_stats]: sample,
    statistics table, process tables, alerts, history and graphs. *)
Definition stage (e : event) : nat :=
  match e with
  | Sampled _ => 0
  | StatsTable _ => 1
  | ProcessTable _ _ => 2
  | Notification _ | Sound => 3
  | Append _ _ _ | SetData _ _ => 4
  | ErrorPrinted _ => 5
  end.

(** A trace is in the order of a numbering when an event of an earlier
    stage never comes after an event of a later one. *)
Definition in_order (number : event -> nat) (trace : list event) : Prop :=
  forall i j e1 e2,
    trace !! i = Some e1 -> trace !! j = Some e2 ->
    (number e1 < number e2)%nat -> (i < j)%nat.

(** A tick on one device at 85 degrees, thresholds at their defaults. *)
Definition hot_tick : GPU_Monitor_App * list event :=
  update_stats (driver [with_temperature (Some 85%Z) healthy])
               (init default_thresholds false 1).

(** ** Bounded series *)

(** The last [n] items of a list. *)
Definition recent {A : Type} (n : nat) (l : list A) : list A :=
  drop (length l - n) l.

(** The values of device [i] under [key] in the samples of a run of
    ticks, oldest first. *)
Fixpoint column (key : metric) (i : nat) (ticks : list (list Stat.t)) : list Q :=
  match ticks with
  | [] => []
  | stats :: rest =>
      match stats !! i with
      | Some stat => StatMetric.get key stat :: column key i rest
      | None => column key i rest
      end
  end.

(** Sixty-three ticks on one device whose temperature counts up from 0. *)
Definition counting_up : list (list Stat.t) :=
  map (fun k => [with_value Temperature (inject_Z (Z.of_nat k)) (idle 0)])
      (seq 0 63).

(** ** Ranking *)

(** [p] is not below [q]: the order of the ranked list. *)
Definition descending {A : Type} (key : A -> Q) (p q : A) : Prop :=
  key q <= key p.

(** The entries whose key is [v]. *)
Definition with_key {A : Type} (key : A -> Q) (v : Q) (l : list A) : list A :=
  List.filter (fun p => Qeq_bool (key p) v) l.

(** A process entry of [pid] holding [m] MiB. *)
Definition holding (pid : Z) (m : Q) : Proc.t :=
  {| Proc.pid := pid; Proc.used_memory := m; Proc.type := C;
     Proc.name := "python"%string |}.

(** ** One failing query *)

(** The ten queries of the loop body of [get_nvidia_stats]. *)
Inductive query : Type :=
| GetName
| GetMemoryInfo
| GetUtilizationRates
| GetTemperature
| GetPowerUsage
| GetEnforcedPowerLimit
| GetFanSpeed
| GetClockInfo
| GetComputeRunningProcesses
| GetGraphicsRunningProcesses.

(** The handle on which query [q] raises [NVMLError] and every other
    query answers as on [h]. *)
Definition failing (q : query) (h : handle) : handle :=
  {| nvmlDeviceGetName :=
       match q with GetName => None | _ => nvmlDeviceGetName h end;
     nvmlDeviceGetMemoryInfo :=
       match q with GetMemoryInfo => None | _ => nvmlDeviceGetMemoryInfo h end;
     nvmlDeviceGetUtilizationRates :=
       match q with
       | GetUtilizationRates => None
       | _ => nvmlDeviceGetUtilizationRates h
       end;
     nvmlDeviceGetTemperature :=
       match q with GetTemperature => None | _ => nvmlDeviceGetTemperature h end;
     nvmlDeviceGetPowerUsage :=
       match q with GetPowerUsage => None | _ => nvmlDeviceGetPowerUsage h end;
     nvmlDeviceGetEnforcedPowerLimit :=
       match q with
       | GetEnforcedPowerLimit => None
       | _ => nvmlDeviceGetEnforcedPowerLimit h
       end;
     nvmlDeviceGetFanSpeed :=
       match q with GetFanSpeed => None | _ => nvmlDeviceGetFanSpeed h end;
     nvmlDeviceGetClockInfo :=
       match q with GetClockInfo => None | _ => nvmlDeviceGetClockInfo h end;
     nvmlDeviceGetComputeRunningProcesses :=
       match q with
       | GetComputeRunningProcesses => None
       | _ => nvmlDeviceGetComputeRunningProcesses h
       end;
     nvmlDeviceGetGraphicsRunningProcesses :=
       match q with
       | GetGraphicsRunningProcesses => None
       | _ => nvmlDeviceGetGraphicsRunningProcesses h
       end |}.

Definition of_type (ty : proc_type) (proc : Proc.t) : bool :=
  match ty, Proc.type proc with
  | C, C | G, G => true
  | _, _ => false
  end.

(** The sample [stat] with the fields of the group of query [q] at
    their sentinel, every other field as it is: ["Unknown"] for the
    name, 0 for the numbers of the group (both power figures for either
    power query), and for a process query the process list without the
    entries of that query. *)
Definition sentinel (q : query) (stat : Stat.t) : Stat.t :=
  let zero (group : bool) (v : Q) : Q := if group then 0 else v in
  let memory := match q with GetMemoryInfo => true | _ => false end in
  let rates := match q with GetUtilizationRates => true | _ => false end in
  let power :=
    match q with GetPowerUsage | GetEnforcedPowerLimit => true | _ => false end in
  {| Stat.gpu_index := Stat.gpu_index stat;
     Stat.name := match q with GetName => "Unknown"%string | _ => Stat.name stat end;
     Stat.memory_total := zero memory (Stat.memory_total stat);
     Stat.memory_used := zero memory (Stat.memory_used stat);
     Stat.memory_utilization := zero memory (Stat.memory_utilization stat);
     Stat.utilization := zero rates (Stat.utilization stat);
     Stat.memory_utilization_rate := zero rates (Stat.memory_utilization_rate stat);
     Stat.temperature :=
       zero match q with GetTemperature => true | _ => false end
            (Stat.temperature stat);
     Stat.power_draw := zero power (Stat.power_draw stat);
     Stat.power_limit := zero power (Stat.power_limit stat);
     Stat.fan_speed :=
       zero match q with GetFanSpeed => true | _ => false end (Stat.fan_speed stat);
     Stat.clock_speed :=
       zero match q with GetClockInfo => true | _ => false end
            (Stat.clock_speed stat);
     Stat.processes :=
       match q with
       | GetComputeRunningProcesses => List.filter (of_type G) (Stat.processes stat)
       | GetGraphicsRunningProcesses => List.filter (of_type C) (Stat.processes stat)
       | _ => Stat.processes stat
       end |}.

(** ** Ticks and component runs *)

(** The alerts notified in a trace, in order. *)
Definition notifications (trace : list event) : list alert :=
  flat_map (fun e => match e with Notification a => [a] | _ => [] end) trace.

(** * The rest of the tick path and of the adapter *)

(** ** The alert stream *)

(** The alerts for [key] of a stream of samples read as rising edges: a
    sample above the threshold alerts when the sample before it in the
    stream was not above it ([armed] stands for the sample before the
    first). *)
Fixpoint rising_edges (key : metric) (threshold : Q) (armed : bool)
    (samples : list Stat.t) : list alert :=
  match samples with
  | [] => []
  | stat :: rest =>
      let value := StatMetric.get key stat in
      (if py_gt value threshold && negb armed
       then [{| alert_gpu := Stat.gpu_index stat; alert_metric := key;
                alert_value := value; alert_threshold := threshold |}]
       else [])
      ++ rising_edges key threshold (py_gt value threshold) rest
  end.

(** The number of calls of [play_sound_alert] in a trace. *)
Definition sounds (trace : list event) : nat :=
  length (List.filter (fun e => match e with Sound => true | _ => false end) trace).

(** ** [get_gpu_name]

    Lines 36-42 of utils.py: here the handle is asked for inside the
    [try]. *)
Definition get_gpu_name (w : world) (index : nat) : result string :=
  try_nvml
    (h ← nvml_call (nvmlDeviceGetHandleByIndex w index);
     name ← nvml_call (nvmlDeviceGetName h);
     Ok name)
    "Unknown"%string.

(** ** When a handle can be read *)

(** The memory query does not answer a total of 0. *)
Definition memory_answer_ok (h : handle) : bool :=
  match nvmlDeviceGetMemoryInfo h with
  | Some m => negb (total m =? 0)%Z
  | None => true
  end.

(** Every process of an answered process query has a memory figure. *)
Definition procs_answer_ok (outcome : option (list nvml_process)) : bool :=
  match outcome with
  | Some procs =>
      forallb (fun p => match usedGpuMemory p with Some _ => true | None => false end)
              procs
  | None => true
  end.

Definition readable (h : handle) : bool :=
  memory_answer_ok h
  && procs_answer_ok (nvmlDeviceGetComputeRunningProcesses h)
  && procs_answer_ok (nvmlDeviceGetGraphicsRunningProcesses h).

(** A process as the driver lists it, with its memory figure. *)
Definition listed (p : Z * Z) : nvml_process :=
  {| nvml_pid := p.1; usedGpuMemory := Some p.2 |}.

(** The entry of [stat['processes']] for a listed process. *)
Definition named_entry (w : world) (ty : proc_type) (p : Z * Z) : Proc.t :=
  {| Proc.pid := p.1;
     Proc.used_memory := inject_Z p.2 / MiB;
     Proc.type := ty;
     Proc.name := get_process_name w p.1 |}.

(** ** What the queries answered *)

(** The entries of the process list that come from one process query:
    one per process it listed, none when it raised. *)
Definition entries (w : world) (ty : proc_type)
    (outcome : option (list nvml_process)) : list Proc.t :=
  match outcome with
  | Some procs =>
      flat_map (fun proc =>
                  match usedGpuMemory proc with
                  | Some m => [named_entry w ty (nvml_pid proc, m)]
                  | None => []
                  end)
               procs
  | None => []
  end.

(** The sample of device [i] read off the answers of its handle, field
    by field: a field whose query answered holds the value of the
    answer (in the units of the sample), a field whose query raised
    holds the sentinel.  The two power figures need both power queries;
    the three memory figures come from the one memory query. *)
Definition answers (w : world) (i : nat) (h : handle) : Stat.t :=
  {| Stat.gpu_index := i;
     Stat.name :=
       match nvmlDeviceGetName h with
       | Some name => name
       | None => "Unknown"%string
       end;
     Stat.memory_total :=
       match nvmlDeviceGetMemoryInfo h with
       | Some m => inject_Z (total m) / MiB
       | None => 0
       end;
     Stat.memory_used :=
       match nvmlDeviceGetMemoryInfo h with
       | Some m => inject_Z (used m) / MiB
       | None => 0
       end;
     Stat.memory_utilization :=
       match nvmlDeviceGetMemoryInfo h with
       | Some m => inject_Z (used m) / inject_Z (total m) * 100
       | None => 0
       end;
     Stat.utilization :=
       match nvmlDeviceGetUtilizationRates h with
       | Some u => inject_Z (gpu u)
       | None => 0
       end;
     Stat.memory_utilization_rate :=
       match nvmlDeviceGetUtilizationRates h with
       | Some u => inject_Z (memory u)
       | None => 0
       end;
     Stat.temperature :=
       match nvmlDeviceGetTemperature h with
       | Some t => inject_Z t
       | None => 0
       end;
     Stat.power_draw :=
       match nvmlDeviceGetPowerUsage h, nvmlDeviceGetEnforcedPowerLimit h with
       | Some usage, Some _ => inject_Z usage / 1000
       | _, _ => 0
       end;
     Stat.power_limit :=
       match nvmlDeviceGetPowerUsage h, nvmlDeviceGetEnforcedPowerLimit h with
       | Some _, Some limit => inject_Z limit / 1000
       | _, _ => 0
       end;
     Stat.fan_speed :=
       match nvmlDeviceGetFanSpeed h with
       | Some f => inject_Z f
       | None => 0
       end;
     Stat.clock_speed :=
       match nvmlDeviceGetClockInfo h with
       | Some c => inject_Z c
       | None => 0
       end;
     Stat.processes :=
       entries w C (nvmlDeviceGetComputeRunningProcesses h)
       ++ entries w G (nvmlDeviceGetGraphicsRunningProcesses h) |}.

Definition has_answer {A : Type} (outcome : option A) : bool :=
  match outcome with
  | Some _ => true
  | None => false
  end.

(** Whether query [q] answers on handle [h] (rather than raising). *)
Definition answered (q : query) (h : handle) : bool :=
  match q with
  | GetName => has_answer (nvmlDeviceGetName h)
  | GetMemoryInfo => has_answer (nvmlDeviceGetMemoryInfo h)
  | GetUtilizationRates => has_answer (nvmlDeviceGetUtilizationRates h)
  | GetTemperature => has_answer (nvmlDeviceGetTemperature h)
  | GetPowerUsage => has_answer (nvmlDeviceGetPowerUsage h)
  | GetEnforcedPowerLimit => has_answer (nvmlDeviceGetEnforcedPowerLimit h)
  | GetFanSpeed => has_answer (nvmlDeviceGetFanSpeed h)
  | GetClockInfo => has_answer (nvmlDeviceGetClockInfo h)
  | GetComputeRunningProcesses =>
      has_answer (nvmlDeviceGetComputeRunningProcesses h)
  | GetGraphicsRunningProcesses =>
      has_answer (nvmlDeviceGetGraphicsRunningProcesses h)
  end.

(** The alert metric that a query feeds, if any: the temperature query
    the temperature, the utilization query the utilization, the memory
    query the memory utilization, and either power query the power
    draw. *)
Definition feeds (q : query) : option metric :=
  match q with
  | GetTemperature => Some Temperature
  | GetUtilizationRates => Some Utilization
  | GetMemoryInfo => Some MemoryUtilization
  | GetPowerUsage | GetEnforcedPowerLimit => Some PowerDraw
  | _ => None
  end.

(** ** Timestamps *)

(** The timestamp of the tick numbered [t] from 0. *)
Definition stamp (t : nat) : nat := Nat.min t buffer_size.

(** ** Settings and the sound effect *)

(** The part of the application that [init_sound_effect] and
    [save_settings] write: [sound_effect] is the source of the
    [QSoundEffect], [None] when there is none. *)
Module Settings.
Record t : Type := {
  thresholds : Thresholds.t;
  sound_alert : bool;
  sound_file : option string;
  sound_effect : option string
}.
End Settings.

(** The message boxes shown. *)
Inductive message : Type :=
| Warning (title : string)
| Information (title : string).

(** What is read from the settings tab by [save_settings]. *)
Record form : Type := {
  temp_input : string;
  util_input : string;
  mem_util_input : string;
  power_input : string;
  sound_checkbox : bool;
  sound_file_input : string
}.

Section Settings_functions.
(** [os.path.isfile], the path of [beep.wav] beside the source file, and
    [float] on a string ([None] for [ValueError]). *)
Variable isfile : string -> bool.
Variable default_beep : string.
Variable float : string -> option Q.

(** [self.sound_file and os.path.isfile(self.sound_file)] *)
Definition usable (sound_file : option string) : bool :=
  match sound_file with
  | Some f => negb (f =? "")%string && isfile f
  | None => false
  end.

(** [init_sound_effect], lines 95-115. *)
Definition init_sound_effect (self : Settings.t) : Settings.t * list message :=
  let with_effect (alert : bool) (effect : option string) : Settings.t :=
    {| Settings.thresholds := Settings.thresholds self;
       Settings.sound_alert := alert;
       Settings.sound_file := Settings.sound_file self;
       Settings.sound_effect := effect |} in
  if Settings.sound_alert self then
    if usable (Settings.sound_file self)
    then (with_effect true (Settings.sound_file self), [])
    else if isfile default_beep
    then (with_effect true (Some default_beep), [])
    else (with_effect false None, [Warning "Sound File Missing"])
  else (with_effect false None, []).

(** [save_settings], lines 338-385.  The four [float] calls come before
    any assignment; the first that raises [ValueError] ends the function
    in the [except ValueError] branch. *)
Definition save_settings (f : form) (self : Settings.t)
  : Settings.t * list message :=
  match float (temp_input f), float (util_input f),
        float (mem_util_input f), float (power_input f) with
  | Some temp, Some util, Some mem_util, Some power =>
      let sound := sound_checkbox f in
      let sound_file := if sound then Some (sound_file_input f) else None in
      let thresholds :=
        {| Thresholds.temperature := temp; Thresholds.utilization := util;
           Thresholds.memory_utilization := mem_util;
           Thresholds.power_draw := power |} in
      let with_effect (alert : bool) (effect : option string) : Settings.t :=
        {| Settings.thresholds := thresholds;
           Settings.sound_alert := alert;
           Settings.sound_file := sound_file;
           Settings.sound_effect := effect |} in
      if sound then
        if usable sound_file
        then (with_effect true sound_file, [Information "Settings Saved"])
        else if isfile default_beep
        then (with_effect true (Some default_beep), [Information "Settings Saved"])
        else (with_effect false None,
              [Warning "Sound File Missing"; Information "Settings Saved"])
      else (with_effect false None, [Information "Settings Saved"])
  | _, _, _, _ => (self, [Warning "Invalid Input"])
  end.

(** Sound alerts are on exactly when a sound effect is loaded, and its
    source is then an existing file. *)
Definition sound_ready (self : Settings.t) : Prop :=
  if Settings.sound_alert self
  then exists f, Settings.sound_effect self = Some f /\ isfile f = true
  else Settings.sound_effect self = None.
End Settings_functions.

(** * The alert engine *)

Section Alert_engine.
Variable thresholds : Thresholds.t.

(** [check_stat] is the four [if ... elif ...] statements side by side:
    each reads and writes the flag of its own key only. *)
Lemma check_stat_flag (key : metric) (stat : Stat.t) (s : AlertStates.t) :
  AlertStates.get key (check_stat thresholds stat s).1 =
  (hysteresis (Stat.gpu_index stat) key (StatMetric.get key stat)
              (Thresholds.get key thresholds) (AlertStates.get key s)).1.
Proof.
  unfold check_stat, hysteresis, py_gt, py_le.
  destruct s as [[] [] [] []], key;
    cbn [StatMetric.get Thresholds.get AlertStates.get];
    repeat (cbn; match goal with
                 | |- context [Qle_bool ?x ?y] => destruct (Qle_bool x y)
                 end); reflexivity.
Qed.

Lemma check_stat_about (key : metric) (stat : Stat.t) (s : AlertStates.t) :
  about key (check_stat thresholds stat s).2 =
  (hysteresis (Stat.gpu_index stat) key (StatMetric.get key stat)
              (Thresholds.get key thresholds) (AlertStates.get key s)).2.
Proof.
  unfold check_stat, hysteresis, about, py_gt, py_le.
  destruct s as [[] [] [] []], key;
    cbn [StatMetric.get Thresholds.get AlertStates.get];
    repeat (cbn; match goal with
                 | |- context [Qle_bool ?x ?y] => destruct (Qle_bool x y)
                 end); reflexivity.
Qed.
End Alert_engine.

Lemma about_app (key : metric) (l1 l2 : list alert) :
  about key (l1 ++ l2) = about key l1 ++ about key l2.
Proof. unfold about. apply filter_app. Qed.

Lemma alert_ticks_single (thresholds : Thresholds.t) (key : metric)
    (samples : list Stat.t) (s : AlertStates.t) :
  map (about key) (alert_ticks thresholds (map (fun stat => [stat]) samples) s) =
  single_run key (Thresholds.get key thresholds) samples (AlertStates.get key s).
Proof.
  revert s. induction samples as [|stat rest IH]; intros s; [reflexivity|].
  cbn [map alert_ticks check_alerts single_run].
  destruct (check_stat thresholds stat s) as [s' alerts] eqn:Hstep.
  cbn [map]. rewrite IH, about_app, app_nil_r.
  pose proof (check_stat_flag thresholds key stat s) as Hflag.
  pose proof (check_stat_about thresholds key stat s) as Habout.
  rewrite Hstep in Hflag, Habout. cbn [fst snd] in Hflag, Habout.
  now rewrite Hflag, Habout.
Qed.

Lemma get_with_value (key : metric) (v : Q) (s : Stat.t) :
  StatMetric.get key (with_value key v s) = v.
Proof. now destruct key. Qed.

Lemma py_gt_above (T : Q) : py_gt (T + 1) T = true.
Proof.
  unfold py_gt. destruct (Qle_bool (T + 1) T) eqn:E; [|reflexivity].
  apply Qle_bool_iff in E. lra.
Qed.

Lemma py_le_below (T : Q) : py_le (T - 1) T = true.
Proof. unfold py_le. apply Qle_bool_iff. lra. Qed.

Lemma py_gt_le (x y : Q) : py_gt x y = negb (py_le x y).
Proof. reflexivity. Qed.

(** C5.  For every threshold [T], every metric and every device, the
    alert engine fed the values [T-1, T+1, T+1, T-1, T+1] of that metric
    on five consecutive ticks, from the flags of startup, emits for that
    metric exactly two alerts: one on the second tick and one on the
    fifth, none on the first, third and fourth.  The other fields of the
    five samples are arbitrary. *)
Theorem breach_clear_breach (thresholds : Thresholds.t) (key : metric)
    (s1 s2 s3 s4 s5 : Stat.t) :
  let T := Thresholds.get key thresholds in
  let entry stat :=
    {| alert_gpu := Stat.gpu_index stat; alert_metric := key;
       alert_value := T + 1; alert_threshold := T |} in
  map (about key)
      (alert_ticks thresholds
         [[with_value key (T - 1) s1]; [with_value key (T + 1) s2];
          [with_value key (T + 1) s3]; [with_value key (T - 1) s4];
          [with_value key (T + 1) s5]]
         AlertStates.init)
  = [[]; [entry s2]; []; []; [entry s5]].
Proof.
  intros T entry.
  change [[with_value key (T - 1) s1]; [with_value key (T + 1) s2];
          [with_value key (T + 1) s3]; [with_value key (T - 1) s4];
          [with_value key (T + 1) s5]]
    with (map (fun stat : Stat.t => [stat])
              [with_value key (T - 1) s1; with_value key (T + 1) s2;
               with_value key (T + 1) s3; with_value key (T - 1) s4;
               with_value key (T + 1) s5]).
  rewrite alert_ticks_single. fold T.
  assert (AlertStates.get key AlertStates.init = false) as -> by now destruct key.
  unfold single_run, hysteresis.
  rewrite !get_with_value, !py_gt_le.
  assert (py_le (T + 1) T = false) as Habove
      by (pose proof (py_gt_above T) as H; rewrite py_gt_le in H;
          now destruct (py_le (T + 1) T)).
  rewrite !Habove, !py_le_below. cbn.
  subst entry. now destruct key.
Qed.

(** ** Flags shared by the devices *)

(** C1, evaluated on the code.  Two devices under the default
    thresholds, device 0 at 85 degrees and device 1 at 70 degrees on
    both of two ticks: device 0 is alerted on the first tick and again
    on the second, although its temperature never came back to the
    threshold, because the sample of device 1 reset the one
    [temperature] flag in between.  Device 0 alone, with the same two
    samples, is alerted once. *)
Theorem flags_shared_between_devices :
  let hot := with_value Temperature 85 (idle 0) in
  let cool := with_value Temperature 70 (idle 1) in
  let a := {| alert_gpu := 0; alert_metric := Temperature;
              alert_value := 85; alert_threshold := 80 |} in
  alert_ticks default_thresholds [[hot; cool]; [hot; cool]] AlertStates.init
  = [[a]; [a]]
  /\ alert_ticks default_thresholds [[hot]; [hot]] AlertStates.init
     = [[a]; []]
  /\ (check_alerts default_thresholds [hot; cool] AlertStates.init).1
     = AlertStates.init.
Proof. repeat split; vm_compute; reflexivity. Qed.

(** ** Which memory figure the alert engine reads *)

Lemma check_stat_with_rate (thresholds : Thresholds.t) (r : Q) (stat : Stat.t)
    (s : AlertStates.t) :
  check_stat thresholds (with_rate r stat) s = check_stat thresholds stat s.
Proof. reflexivity. Qed.

Lemma check_alerts_with_rate (thresholds : Thresholds.t) (r : Stat.t -> Q)
    (stats : list Stat.t) (s : AlertStates.t) :
  check_alerts thresholds (map (fun stat => with_rate (r stat) stat) stats) s =
  check_alerts thresholds stats s.
Proof.
  revert s. induction stats as [|stat rest IH]; intros s; [reflexivity|].
  cbn [map check_alerts]. rewrite check_stat_with_rate.
  destruct (check_stat thresholds stat s) as [s' alerts].
  now rewrite IH.
Qed.

Lemma device_stat_memory_figures (w : world) (i : nat) (h : handle)
    (m : mem_info) (u : util_rates) (stat : Stat.t) :
  nvmlDeviceGetHandleByIndex w i = Some h ->
  nvmlDeviceGetMemoryInfo h = Some m ->
  nvmlDeviceGetUtilizationRates h = Some u ->
  device_stat w i = Ok stat ->
  Stat.memory_utilization stat = inject_Z (used m) / inject_Z (total m) * 100
  /\ Stat.memory_utilization_rate stat = inject_Z (memory u).
Proof.
  intros Hh Hm Hu. unfold device_stat. rewrite Hh. cbn. unfold read_handle.
  unfold memory_group, utilization_group. rewrite Hm, Hu. cbn.
  unfold py_div. destruct (Qeq_bool (inject_Z (total m)) 0); cbn; [discriminate|].
  destruct (temperature_group h); cbn; [|discriminate].
  destruct (power_group h) as [[]|]; cbn; [|discriminate].
  destruct (fan_group h); cbn; [|discriminate].
  destruct (clock_group h); cbn; [|discriminate].
  destruct (processes_group w h); cbn; [|discriminate].
  intros [= <-]. split; reflexivity.
Qed.

(** C10.  The memory-utilization alert is decided on
    [memory_utilization], the percentage derived from used and total:
    (1) replacing [memory_utilization_rate] in every sample by any other
    value changes neither the flags nor the alerts of [check_alerts];
    (2) the memory-utilization flag and alert of a sample are those of
    the hysteresis statement applied to its [memory_utilization] and the
    memory-utilization threshold; (3) the adapter does collect both
    figures: when the two queries answer, [memory_utilization] is
    [used / total * 100] and [memory_utilization_rate] is the [memory]
    rate of the utilization query. *)
Theorem memory_alert_reads_derived_percentage :
  (forall thresholds (r : Stat.t -> Q) stats s,
      check_alerts thresholds (map (fun stat => with_rate (r stat) stat) stats) s =
      check_alerts thresholds stats s)
  /\ (forall thresholds stat s,
         let step :=
           hysteresis (Stat.gpu_index stat) MemoryUtilization
                      (Stat.memory_utilization stat)
                      (Thresholds.memory_utilization thresholds)
                      (AlertStates.memory_utilization s) in
         AlertStates.memory_utilization (check_stat thresholds stat s).1 = step.1
         /\ about MemoryUtilization (check_stat thresholds stat s).2 = step.2)
  /\ (forall w i h m u stat,
         nvmlDeviceGetHandleByIndex w i = Some h ->
         nvmlDeviceGetMemoryInfo h = Some m ->
         nvmlDeviceGetUtilizationRates h = Some u ->
         device_stat w i = Ok stat ->
         Stat.memory_utilization stat = inject_Z (used m) / inject_Z (total m) * 100
         /\ Stat.memory_utilization_rate stat = inject_Z (memory u)).
Proof.
  split; [|split].
  - apply check_alerts_with_rate.
  - intros thresholds stat s step. split.
    + apply (check_stat_flag thresholds MemoryUtilization).
    + apply (check_stat_about thresholds MemoryUtilization).
  - apply device_stat_memory_figures.
Qed.

(** The third part at the healthy device: 2048 MiB of 8192 MiB used and
    a memory rate of 15. *)
Lemma memory_alert_reads_derived_percentage_witness :
  exists stat,
    device_stat (driver [healthy]) 0 = Ok stat
    /\ Stat.memory_utilization stat
       = inject_Z (2048 * 1024 ^ 2) / inject_Z (8192 * 1024 ^ 2) * 100
    /\ Stat.memory_utilization_rate stat = inject_Z 15.
Proof.
  destruct (device_stat (driver [healthy]) 0) as [stat|e] eqn:Hstat;
    [|vm_compute in Hstat; discriminate].
  exists stat. split; [reflexivity|].
  exact (proj2 (proj2 memory_alert_reads_derived_percentage)
           (driver [healthy]) 0%nat healthy _ _ stat
           eq_refl eq_refl eq_refl Hstat).
Defined.

(** ** A failed query seen by the alert engine *)

(** Case analysis on the outcome of the next group of [read_handle]. *)
Ltac next_group :=
  match goal with
  | |- context [mbind _ ?r] =>
      let E := fresh "Hgroup" in
      destruct r as [?|?] eqn:E; cbn; [|discriminate]
  end.

Lemma read_handle_temperature_failed (w : world) (i : nat) (h : handle)
    (stat : Stat.t) :
  nvmlDeviceGetTemperature h = None ->
  read_handle w i h = Ok stat ->
  Stat.temperature stat = 0.
Proof.
  intros Htemp. unfold read_handle, temperature_group. rewrite Htemp. cbn.
  destruct (memory_group h) as [[[? ?] ?]|]; cbn; [|discriminate].
  destruct (utilization_group h) as [[? ?]|]; cbn; [|discriminate].
  destruct (power_group h) as [[? ?]|]; cbn; [|discriminate].
  do 3 next_group. now intros [= <-].
Qed.

(** To [read_handle], a temperature query that raises and one that
    answers 0 are the same. *)
Lemma read_handle_temperature_zero (w : world) (i : nat) (h : handle) :
  nvmlDeviceGetTemperature h = None ->
  read_handle w i (with_temperature (Some 0%Z) h) = read_handle w i h.
Proof.
  destruct h; cbn. intros ->. reflexivity.
Qed.

Lemma device_stat_set_handle (w : world) (i : nat) (h : handle) :
  device_stat (set_handle i h w) i = read_handle w i h.
Proof.
  unfold device_stat, set_handle; cbn.
  destruct (decide (i = i)) as [_|Hne]; [reflexivity|contradiction].
Qed.

(** * The adapter: memory utilization *)

Lemma memory_group_total_zero (h : handle) (u : Z) :
  nvmlDeviceGetMemoryInfo h = Some {| total := 0; used := u |} ->
  memory_group h = Raise ZeroDivisionError.
Proof. unfold memory_group. now intros ->. Qed.

(** C2, evaluated on the code.  The memory query of the second of two
    devices answers [total = 0]: the division raises
    [ZeroDivisionError], which [except pynvml.NVMLError] does not catch;
    [get_nvidia_stats] returns no sample at all, and the tick ends with
    the error printed, the flags and the buffers untouched. *)
Theorem zero_total_raises :
  let w := driver [healthy; no_memory] in
  let self := init default_thresholds false 2 in
  memory_group no_memory = Raise ZeroDivisionError
  /\ get_nvidia_stats w 2 = Raise ZeroDivisionError
  /\ update_stats w self = (self, [ErrorPrinted ZeroDivisionError]).
Proof. repeat split; vm_compute; reflexivity. Qed.

(** * The history store: timestamps *)

(** C3, evaluated on the code.  One device, 62 ticks.  [current_time] is
    the length of the [time] deque, which stays at 60 once the deque is
    full: the ticks 61 and 62 are both stamped 60, and the [time] series
    ends with 60, 60. *)
Theorem timestamps_stall_at_capacity :
  let after n := graph_ticks (replicate n [idle 0]) (replicate 1 Buffer.init) in
  (Buffer.time <$> after 62%nat !! 0%nat) = Some (seq 2 59 ++ [60%nat])
  /\ (update_dashboard_graphs [idle 0] (after 60%nat)).1.2 !! 0%nat
     = Some (Append 0 60 (idle 0))
  /\ (update_dashboard_graphs [idle 0] (after 61%nat)).1.2 !! 0%nat
     = Some (Append 0 60 (idle 0)).
Proof. repeat split; vm_compute; reflexivity. Qed.

(** * The order of a tick *)

Lemma in_order_nil (number : event -> nat) : in_order number [].
Proof. intros i j e1 e2 H. now rewrite lookup_nil in H. Qed.

Lemma in_order_cons (number : event -> nat) (e : event) (trace : list event) :
  Forall (fun e' => (number e <= number e')%nat) trace ->
  in_order number trace ->
  in_order number (e :: trace).
Proof.
  intros Hall Hrest [|i] [|j] e1 e2 H1 H2 Hlt; cbn in H1, H2.
  - injection H1 as <-. injection H2 as <-. lia.
  - lia.
  - injection H2 as <-.
    rewrite Forall_lookup in Hall. specialize (Hall i e1 H1). cbn in Hall. lia.
  - specialize (Hrest i j e1 e2 H1 H2 Hlt). lia.
Qed.

Lemma in_order_app (number : event -> nat) (n : nat) (l1 l2 : list event) :
  Forall (fun e => (number e <= n)%nat) l1 ->
  Forall (fun e => (n <= number e)%nat) l2 ->
  in_order number l1 -> in_order number l2 ->
  in_order number (l1 ++ l2).
Proof.
  intros H1 H2 Ho1 Ho2. induction l1 as [|e l1 IH]; [exact Ho2|].
  cbn. apply in_order_cons.
  - apply Forall_app. split.
    + rewrite Forall_lookup. intros k e' Hk.
      destruct (decide (number e <= number e')%nat) as [|Hgt]; [assumption|].
      assert (number e' < number e)%nat as Hlt by lia.
      specialize (Ho1 (S k) 0%nat e' e Hk eq_refl Hlt). lia.
    + inversion H1; subst. eapply Forall_impl; [exact H2|]. cbn. intros; lia.
  - apply IH.
    + now inversion H1.
    + intros i j e1 e2 Hi Hj Hlt.
      specialize (Ho1 (S i) (S j) e1 e2 Hi Hj Hlt). lia.
Qed.

Lemma in_order_same (number : event -> nat) (n : nat) (l : list event) :
  Forall (fun e => number e = n) l -> in_order number l.
Proof.
  intros Hall i j e1 e2 Hi Hj Hlt. rewrite Forall_lookup in Hall.
  pose proof (Hall i e1 Hi). pose proof (Hall j e2 Hj). cbn in *. lia.
Qed.

Lemma process_tables_loop_stage (tabs i : nat) (stats : list Stat.t) :
  Forall (fun e => stage e = 2%nat) (process_tables_loop tabs i stats).
Proof.
  revert i. induction stats as [|stat rest IH]; intros i; cbn; [constructor|].
  destruct (tabs <=? i)%nat; [apply IH|]. constructor; [reflexivity|apply IH].
Qed.

Lemma trigger_alerts_stage (sound : bool) (alerts : list alert) :
  Forall (fun e => stage e = 3%nat) (trigger_alerts sound alerts).
Proof.
  induction alerts as [|a rest IH]; cbn; [constructor|].
  constructor; [reflexivity|].
  destruct sound; cbn; [constructor; [reflexivity|]|]; exact IH.
Qed.

Lemma check_alerts_events_stage (thresholds : Thresholds.t) (sound : bool)
    (stats : list Stat.t) (s : AlertStates.t) :
  Forall (fun e => stage e = 3%nat)
         (check_alerts_events thresholds sound stats s).2.
Proof.
  revert s. induction stats as [|stat rest IH]; intros s; cbn; [constructor|].
  destruct (check_stat thresholds stat s) as [s' alerts].
  specialize (IH s').
  destruct (check_alerts_events thresholds sound rest s') as [s'' later].
  cbn in *. apply Forall_app. split; [apply trigger_alerts_stage|exact IH].
Qed.

(** The sinks see the alerts of [check_alerts], each followed by the
    sound when sound alerts are on. *)
Lemma check_alerts_events_alerts (thresholds : Thresholds.t) (sound : bool)
    (stats : list Stat.t) (s : AlertStates.t) :
  check_alerts_events thresholds sound stats s =
  ((check_alerts thresholds stats s).1,
   trigger_alerts sound (check_alerts thresholds stats s).2).
Proof.
  revert s. induction stats as [|stat rest IH]; intros s; cbn; [reflexivity|].
  destruct (check_stat thresholds stat s) as [s' alerts].
  rewrite IH. destruct (check_alerts thresholds rest s') as [s'' later]. cbn.
  unfold trigger_alerts. now rewrite flat_map_app.
Qed.

Lemma graphs_loop_stage (current_time i : nat) (stats : list Stat.t)
    (data_buffers : list Buffer.t) :
  Forall (fun e => stage e = 4%nat)
         (graphs_loop current_time i stats data_buffers).1.2.
Proof.
  revert i data_buffers.
  induction stats as [|stat rest IH]; intros i data_buffers; cbn; [constructor|].
  destruct (data_buffers !! i) as [buffer|]; cbn; [|constructor].
  specialize (IH (S i) (<[i:=append_sample current_time stat buffer]> data_buffers)).
  destruct (graphs_loop current_time (S i) rest _) as [[bufs evs] raised].
  cbn in *. repeat constructor. exact IH.
Qed.

Lemma update_dashboard_graphs_stage (stats : list Stat.t)
    (data_buffers : list Buffer.t) :
  Forall (fun e => stage e = 4%nat)
         (update_dashboard_graphs stats data_buffers).1.2.
Proof.
  unfold update_dashboard_graphs.
  destruct (data_buffers !! 0%nat); [apply graphs_loop_stage|constructor].
Qed.

Lemma Forall_stage_le (n m : nat) (l : list event) :
  Forall (fun e => stage e = n) l -> (n <= m)%nat ->
  Forall (fun e => (stage e <= m)%nat) l.
Proof. intros H Hnm. eapply Forall_impl; [exact H|]. cbn. intros e He. lia. Qed.

Lemma Forall_stage_ge (n m : nat) (l : list event) :
  Forall (fun e => stage e = n) l -> (m <= n)%nat ->
  Forall (fun e => (m <= stage e)%nat) l.
Proof. intros H Hnm. eapply Forall_impl; [exact H|]. cbn. intros e He. lia. Qed.

(** Bounds on the stages of a concatenation of segments, each of one
    known stage. *)
Ltac stage_bound :=
  repeat (apply Forall_app; split);
  first [ eapply Forall_stage_ge; [eassumption|lia]
        | eapply Forall_stage_le; [eassumption|lia] ].

(** C4 as stated fails.  In the tick of one device at 85 degrees the
    notification of the temperature alert is the fourth event and the
    append to the history buffers the fifth: the alert evaluation of the
    tick comes before its history update. *)
Lemma history_is_updated_after_alerts :
  ~ in_order documented_stage hot_tick.2.
Proof.
  intros Horder.
  assert (exists e1 e2,
             hot_tick.2 !! 4%nat = Some e1 /\ hot_tick.2 !! 3%nat = Some e2
             /\ documented_stage e1 = 1%nat /\ documented_stage e2 = 3%nat)
    as (e1 & e2 & H1 & H2 & Hs1 & Hs2).
  { vm_compute. do 2 eexists. repeat split; reflexivity. }
  specialize (Horder 4%nat 3%nat e1 e2 H1 H2). lia.
Qed.

(** C4, amended.  Every tick runs in the order of the calls of
    [update_stats]: the sample, then the statistics table, then the
    ranked process tables, then the alerts, then the appends to the
    history buffers with the redrawing of the graphs, then the message
    of an error if there was one.  In particular an alert of a tick is
    notified before any append of that tick to the history buffers. *)
Theorem tick_order (w : world) (self : GPU_Monitor_App) :
  let trace := (update_stats w self).2 in
  in_order stage trace
  /\ forall i j a k t stat,
       trace !! i = Some (Notification a) ->
       trace !! j = Some (Append k t stat) ->
       (i < j)%nat.
Proof.
  intros trace.
  assert (in_order stage trace) as Horder.
  { subst trace. unfold update_stats.
    destruct (get_nvidia_stats w (device_count self)) as [stats|e]; cbn.
    - pose proof (check_alerts_events_stage (thresholds self) (sound_alert self)
                    stats (alert_states self)) as Halerts.
      destruct (check_alerts_events _ _ stats _) as [s' alert_evs].
      pose proof (update_dashboard_graphs_stage stats (data_buffers self)) as Hgraphs.
      destruct (update_dashboard_graphs stats _) as [[bufs graph_evs] raised].
      pose proof (process_tables_loop_stage (device_count self) 0 stats) as Hprocs.
      cbn in *.
      assert (Forall (fun e => stage e = 5%nat) (print_error raised)) as Herr
          by (destruct raised; repeat constructor).
      assert (Forall (fun e => stage e = 1%nat) [StatsTable stats]) as Htable
          by (repeat constructor).
      change (in_order stage
                ([Sampled stats] ++ [StatsTable stats] ++
                 process_tables_loop (device_count self) 0 stats ++
                 alert_evs ++ graph_evs ++ print_error raised)).
      apply (in_order_app stage 0); [repeat constructor|stage_bound| |].
      { apply (in_order_same stage 0). repeat constructor. }
      apply (in_order_app stage 1); [stage_bound|stage_bound| |].
      { now apply (in_order_same stage 1). }
      apply (in_order_app stage 2); [stage_bound|stage_bound| |].
      { now apply (in_order_same stage 2). }
      apply (in_order_app stage 3); [stage_bound|stage_bound| |].
      { now apply (in_order_same stage 3). }
      apply (in_order_app stage 4); [stage_bound|stage_bound| |].
      { now apply (in_order_same stage 4). }
      now apply (in_order_same stage 5).
    - apply (in_order_same stage 5). repeat constructor. }
  split; [exact Horder|].
  intros i j a k t stat Hi Hj. apply (Horder i j _ _ Hi Hj). cbn. lia.
Qed.

(** * The history store: bounded series *)

Section Deque.
Context {A : Type}.
Implicit Types (d l k : list A) (x : A).

Lemma length_recent (n : nat) l : (length (recent n l) <= n)%nat.
Proof. unfold recent. rewrite length_drop. lia. Qed.

Lemma recent_short (n : nat) l : (length l <= n)%nat -> recent n l = l.
Proof.
  intros H. unfold recent. replace (length l - n)%nat with 0%nat by lia.
  apply drop_0.
Qed.

Lemma recent_app_recent (n : nat) l k :
  recent n (recent n l ++ k) = recent n (l ++ k).
Proof.
  unfold recent. rewrite !length_app, length_drop.
  rewrite <- (drop_app_le l k (length l - n)) by lia.
  rewrite drop_drop. f_equal. lia.
Qed.

(** A deque within its bound keeps, after an append, the last
    [maxlen] of what it held and the new item. *)
Lemma deque_append_recent (maxlen : nat) d x :
  (length d <= maxlen)%nat ->
  deque_append maxlen d x = recent maxlen (d ++ [x]).
Proof.
  intros Hlen. unfold deque_append, recent. rewrite length_app. cbn [length].
  destruct (Nat.ltb_spec maxlen (length d + 1)) as [Hfull|Hroom].
  - f_equal. lia.
  - replace (length d + 1 - maxlen)%nat with 0%nat by lia. now rewrite drop_0.
Qed.

Lemma length_deque_append (maxlen : nat) d x :
  (length d <= maxlen)%nat -> (length (deque_append maxlen d x) <= maxlen)%nat.
Proof.
  intros Hlen. rewrite deque_append_recent by assumption. apply length_recent.
Qed.
End Deque.

Lemma series_append_sample (key : metric) (current_time : nat) (stat : Stat.t)
    (buffer : Buffer.t) :
  Buffer.series key (append_sample current_time stat buffer) =
  deque_append buffer_size (Buffer.series key buffer) (StatMetric.get key stat).
Proof. now destruct key. Qed.

(** With a buffer for every sample the loop of [update_dashboard_graphs]
    raises nothing and appends the sample at [i + k] to the buffer at
    [i + k], leaving the others alone. *)
Lemma graphs_loop_lookup (current_time : nat) (stats : list Stat.t) :
  forall (i : nat) (data_buffers : list Buffer.t),
    (i + length stats <= length data_buffers)%nat ->
    let r := graphs_loop current_time i stats data_buffers in
    r.2 = None
    /\ length r.1.1 = length data_buffers
    /\ forall j,
         r.1.1 !! j =
         match (if decide (i <= j)%nat then stats !! (j - i)%nat else None) with
         | Some stat => append_sample current_time stat <$> data_buffers !! j
         | None => data_buffers !! j
         end.
Proof.
  induction stats as [|stat rest IH]; intros i bufs Hlen; cbn.
  - repeat split. intros j. now destruct (decide (i <= j)%nat).
  - cbn in Hlen.
    destruct (lookup_lt_is_Some_2 bufs i) as [buffer Hbuffer]; [lia|].
    rewrite Hbuffer.
    set (buffer' := append_sample current_time stat buffer).
    specialize (IH (S i) (<[i:=buffer']> bufs)).
    rewrite length_insert in IH. specialize (IH ltac:(lia)).
    destruct (graphs_loop current_time (S i) rest (<[i:=buffer']> bufs))
      as [[bufs' evs] raised].
    cbn in *. destruct IH as (Hraised & Hlength & Hlookup).
    repeat split; [assumption..|].
    intros j. rewrite Hlookup.
    destruct (decide (S i <= j)%nat) as [Hlater|Hnot].
    + destruct (decide (i <= j)%nat) as [_|]; [|lia].
      replace (j - i)%nat with (S (j - S i)) by lia. cbn.
      now rewrite list_lookup_insert_ne by lia.
    + destruct (decide (i <= j)%nat) as [Hle|Hbefore].
      * assert (j = i) as -> by lia. rewrite Nat.sub_diag. cbn.
        rewrite list_lookup_insert_eq by lia. now rewrite Hbuffer.
      * now rewrite list_lookup_insert_ne by lia.
Qed.

Lemma update_dashboard_graphs_lookup (stats : list Stat.t)
    (data_buffers : list Buffer.t) (i : nat) (stat : Stat.t) (buffer : Buffer.t) :
  length stats = length data_buffers ->
  stats !! i = Some stat ->
  data_buffers !! i = Some buffer ->
  let r := update_dashboard_graphs stats data_buffers in
  length r.1.1 = length data_buffers
  /\ exists current_time,
       r.1.1 !! i = Some (append_sample current_time stat buffer).
Proof.
  intros Hlen Hstat Hbuffer. unfold update_dashboard_graphs.
  destruct (data_buffers !! 0%nat) as [first|] eqn:Hfirst.
  - destruct (graphs_loop_lookup (length (Buffer.time first)) stats 0 data_buffers)
      as (_ & Hlength & Hlookup); [cbn; lia|].
    cbn. split; [exact Hlength|]. exists (length (Buffer.time first)).
    rewrite Hlookup. destruct (decide (0 <= i)%nat); [|lia].
    now rewrite Nat.sub_0_r, Hstat, Hbuffer.
  - apply lookup_ge_None_1 in Hfirst. apply lookup_lt_Some in Hbuffer. lia.
Qed.

(** From buffers within their bound, a run of ticks that each bring one
    sample per buffer leaves in every series the last [buffer_size] of
    what it held followed by the values of the run. *)
Lemma graph_ticks_series (n : nat) (key : metric) (i : nat)
    (ticks : list (list Stat.t)) :
  Forall (fun stats => length stats = n) ticks ->
  forall (data_buffers : list Buffer.t) (buffer : Buffer.t),
    length data_buffers = n ->
    data_buffers !! i = Some buffer ->
    (length (Buffer.series key buffer) <= buffer_size)%nat ->
    exists buffer',
      graph_ticks ticks data_buffers !! i = Some buffer'
      /\ Buffer.series key buffer' =
         recent buffer_size (Buffer.series key buffer ++ column key i ticks).
Proof.
  induction 1 as [|stats rest Hstats _ IH]; intros bufs buffer Hn Hbuffer Hbound.
  - exists buffer. cbn. split; [assumption|].
    now rewrite app_nil_r, recent_short.
  - cbn [graph_ticks column].
    destruct (lookup_lt_is_Some_2 stats i) as [stat Hstat];
      [apply lookup_lt_Some in Hbuffer; lia|].
    destruct (update_dashboard_graphs_lookup stats bufs i stat buffer)
      as (Hlength & current_time & Hnew); [lia|assumption..|].
    rewrite Hstat.
    cbn zeta in Hlength, Hnew.
    destruct (IH (update_dashboard_graphs stats bufs).1.1
                 (append_sample current_time stat buffer))
      as (buffer' & Hlookup & Hseries); [lia|exact Hnew| |].
    { rewrite series_append_sample. now apply length_deque_append. }
    exists buffer'. split; [exact Hlookup|].
    rewrite Hseries, series_append_sample, deque_append_recent by assumption.
    now rewrite recent_app_recent, <- app_assoc.
Qed.

Lemma length_column (n : nat) (key : metric) (i : nat) (ticks : list (list Stat.t)) :
  Forall (fun stats => length stats = n) ticks -> (i < n)%nat ->
  length (column key i ticks) = length ticks.
Proof.
  intros Hall Hi. induction Hall as [|stats rest Hstats _ IH]; [reflexivity|].
  cbn. destruct (lookup_lt_is_Some_2 stats i) as [stat ->]; [lia|].
  cbn. now rewrite IH.
Qed.

(** C6.  [n] devices, buffers as created at startup, any run of ticks
    with one sample per device.  For every device and every graph
    metric the series never holds more than [buffer_size] = 60 values,
    and it holds the values of the run without the first
    [length ticks - 60]: after [60 + k] ticks exactly the last 60, in the
    order in which they came. *)
Theorem series_keeps_the_last_60 (n : nat) (ticks : list (list Stat.t))
    (i : nat) (key : metric) :
  Forall (fun stats => length stats = n) ticks ->
  (i < n)%nat ->
  exists buffer,
    graph_ticks ticks (replicate n Buffer.init) !! i = Some buffer
    /\ (length (Buffer.series key buffer) <= 60)%nat
    /\ Buffer.series key buffer = drop (length ticks - 60) (column key i ticks)
    /\ forall k, length ticks = (60 + k)%nat ->
         Buffer.series key buffer = drop k (column key i ticks)
         /\ length (Buffer.series key buffer) = 60%nat.
Proof.
  intros Hticks Hi.
  destruct (graph_ticks_series n key i ticks Hticks (replicate n Buffer.init)
              Buffer.init) as (buffer & Hlookup & Hseries).
  { apply length_replicate. }
  { now apply lookup_replicate_2. }
  { destruct key; cbn; lia. }
  assert (Buffer.series key Buffer.init = []) as Hinit by now destruct key.
  rewrite Hinit in Hseries. cbn [List.app] in Hseries.
  pose proof (length_column n key i ticks Hticks Hi) as Hcolumn.
  unfold recent, buffer_size in Hseries. rewrite Hcolumn in Hseries.
  exists buffer. split; [exact Hlookup|].
  split; [|split]; [| exact Hseries |].
  - rewrite Hseries, length_drop. lia.
  - intros k Hk. rewrite Hseries, length_drop, Hcolumn, Hk.
    replace (60 + k - 60)%nat with k by lia. split; [reflexivity|lia].
Qed.

Lemma series_keeps_the_last_60_witness :
  exists buffer,
    graph_ticks counting_up (replicate 1 Buffer.init) !! 0%nat = Some buffer
    /\ Buffer.series Temperature buffer = drop 3 (column Temperature 0 counting_up)
    /\ length (Buffer.series Temperature buffer) = 60%nat.
Proof.
  destruct (series_keeps_the_last_60 1 counting_up 0 Temperature)
    as (buffer & Hlookup & _ & _ & Hlast).
  - vm_compute. repeat constructor.
  - lia.
  - exists buffer. split; [exact Hlookup|]. apply (Hlast 3%nat). reflexivity.
Defined.

(** * The process ranker *)

Section Ranking.
Context {A : Type} (key : A -> Q).

Lemma insert_reverse_perm (x : A) (l : list A) :
  Permutation (insert_reverse key x l) (x :: l).
Proof.
  induction l as [|y l IH]; cbn; [reflexivity|].
  destruct (Qle_bool (key y) (key x)); [reflexivity|].
  rewrite IH. apply perm_swap.
Qed.

Lemma sorted_reverse_perm (l : list A) : Permutation (sorted_reverse key l) l.
Proof.
  induction l as [|x l IH]; cbn; [reflexivity|].
  rewrite insert_reverse_perm. now constructor.
Qed.

Lemma insert_reverse_sorted (x : A) (l : list A) :
  StronglySorted (descending key) l ->
  StronglySorted (descending key) (insert_reverse key x l).
Proof.
  induction 1 as [|y l Hsorted IH Hy]; cbn.
  - repeat constructor.
  - destruct (Qle_bool (key y) (key x)) eqn:Hle.
    + apply Qle_bool_iff in Hle.
      constructor; [now constructor|].
      constructor; [exact Hle|].
      eapply Forall_impl; [exact Hy|]. cbn. unfold descending.
      intros z Hz. now apply Qle_trans with (key y).
    + assert (key x <= key y) as Hlt.
      { apply Qlt_le_weak, Qnot_le_lt. intros H.
        apply Qle_bool_iff in H. congruence. }
      constructor; [exact IH|].
      eapply Permutation_Forall; [symmetry; apply insert_reverse_perm|].
      now constructor.
Qed.

Lemma sorted_reverse_sorted (l : list A) :
  StronglySorted (descending key) (sorted_reverse key l).
Proof.
  induction l as [|x l IH]; cbn; [constructor|].
  now apply insert_reverse_sorted.
Qed.

Lemma insert_reverse_with_key (v : Q) (x : A) (l : list A) :
  with_key key v (insert_reverse key x l) = with_key key v (x :: l).
Proof.
  unfold with_key. induction l as [|y l IH]; [reflexivity|].
  cbn [insert_reverse].
  destruct (Qle_bool (key y) (key x)) eqn:Hle; [reflexivity|].
  cbn [List.filter] in *. rewrite IH.
  destruct (Qeq_bool (key x) v) eqn:Hx, (Qeq_bool (key y) v) eqn:Hy;
    try reflexivity.
  apply Qeq_bool_iff in Hx, Hy.
  assert (Qle_bool (key y) (key x) = true) as Habs
      by (apply Qle_bool_iff; rewrite Hx, Hy; apply Qle_refl).
  congruence.
Qed.

(** Stability: entries of equal keys come out in the order in which
    they went in. *)
Lemma sorted_reverse_with_key (v : Q) (l : list A) :
  with_key key v (sorted_reverse key l) = with_key key v l.
Proof.
  induction l as [|x l IH]; [reflexivity|].
  cbn [sorted_reverse]. rewrite insert_reverse_with_key.
  unfold with_key in *. cbn [List.filter]. now rewrite IH.
Qed.
End Ranking.

(** C7.  For every list of process entries, what is displayed is the
    first 20 entries (all of them when there are fewer) of the list
    [ranked], which holds the same entries as the input, in descending
    order of [used_memory], those of equal [used_memory] in the order
    of the input.  Entries given in the order 5, 20, 5, 1 MiB come out
    as 20, the first 5, the second 5, 1. *)
Theorem ranking_is_stable_descending_top_20 (processes : list Proc.t) :
  let ranked := sorted_reverse Proc.used_memory processes in
  display_processes processes = take 20 ranked
  /\ Permutation ranked processes
  /\ StronglySorted (descending Proc.used_memory) ranked
  /\ (forall v, with_key Proc.used_memory v ranked
                = with_key Proc.used_memory v processes)
  /\ (length (display_processes processes) <= 20)%nat
  /\ display_processes [holding 1 5; holding 2 20; holding 3 5; holding 4 1]
     = [holding 2 20; holding 1 5; holding 3 5; holding 4 1].
Proof.
  intros ranked. repeat split.
  - apply sorted_reverse_perm.
  - apply sorted_reverse_sorted.
  - intros v. apply sorted_reverse_with_key.
  - unfold display_processes. rewrite length_take. lia.
Qed.

(** * The adapter: one failing query *)

Section Failing_query.
Variables (q : query) (h : handle).

Lemma name_group_failing :
  name_group (failing q h) =
  match q with GetName => "Unknown"%string | _ => name_group h end.
Proof. now destruct q. Qed.

Lemma memory_group_failing :
  memory_group (failing q h) =
  match q with GetMemoryInfo => Ok (0, 0, 0) | _ => memory_group h end.
Proof. now destruct q. Qed.

Lemma utilization_group_failing :
  utilization_group (failing q h) =
  match q with GetUtilizationRates => Ok (0, 0) | _ => utilization_group h end.
Proof. now destruct q. Qed.

Lemma temperature_group_failing :
  temperature_group (failing q h) =
  match q with GetTemperature => Ok 0 | _ => temperature_group h end.
Proof. now destruct q. Qed.

Lemma power_group_failing :
  power_group (failing q h) =
  match q with
  | GetPowerUsage | GetEnforcedPowerLimit => Ok (0, 0)
  | _ => power_group h
  end.
Proof.
  destruct q; try reflexivity.
  unfold power_group; cbn. now destruct (nvmlDeviceGetPowerUsage h).
Qed.

Lemma fan_group_failing :
  fan_group (failing q h) =
  match q with GetFanSpeed => Ok 0 | _ => fan_group h end.
Proof. now destruct q. Qed.

Lemma clock_group_failing :
  clock_group (failing q h) =
  match q with GetClockInfo => Ok 0 | _ => clock_group h end.
Proof. now destruct q. Qed.
End Failing_query.

Section Process_queries.
Variable w : world.

Lemma append_procs_app (ty : proc_type) (procs : list nvml_process)
    (processes : list Proc.t) :
  append_procs ty procs processes =
  (entries ← append_procs ty procs []; Ok (processes ++ entries)).
Proof.
  revert processes. induction procs as [|proc rest IH]; intros processes.
  - cbn. now rewrite app_nil_r.
  - cbn [append_procs]. destruct (usedGpuMemory proc) as [m|]; [|reflexivity].
    rewrite IH, (IH ([] ++ _)).
    destruct (append_procs ty rest []) as [entries|e]; cbn; [|reflexivity].
    now rewrite <- app_assoc.
Qed.

Lemma append_procs_type (ty : proc_type) (procs : list nvml_process)
    (processes entries : list Proc.t) :
  Forall (fun p => Proc.type p = ty) processes ->
  append_procs ty procs processes = Ok entries ->
  Forall (fun p => Proc.type p = ty) entries.
Proof.
  revert processes. induction procs as [|proc rest IH]; intros processes Hty; cbn.
  - now intros [= <-].
  - destruct (usedGpuMemory proc) as [m|]; [|discriminate].
    apply IH. apply Forall_app. split; [assumption|]. now repeat constructor.
Qed.

Lemma append_procs_not_nvml (ty : proc_type) (procs : list nvml_process)
    (processes : list Proc.t) :
  append_procs ty procs processes <> Raise NVMLError.
Proof.
  revert processes. induction procs as [|proc rest IH]; intros processes; cbn.
  - discriminate.
  - destruct (usedGpuMemory proc); [apply IH|discriminate].
Qed.

(** What a process query adds to the list does not depend on the
    list, and is of the type of the query. *)
Lemma process_query_app (ty : proc_type) (outcome : option (list nvml_process))
    (processes all : list Proc.t) :
  process_query ty outcome processes = Ok all ->
  exists entries,
    process_query ty outcome [] = Ok entries
    /\ all = processes ++ entries
    /\ Forall (fun p => Proc.type p = ty) entries.
Proof.
  unfold process_query. destruct outcome as [procs|]; cbn.
  - pose proof (append_procs_not_nvml ty procs processes) as Hnot.
    rewrite append_procs_app in Hnot |- *.
    destruct (append_procs ty procs []) as [entries|e] eqn:Hentries; cbn in *.
    + intros [= <-]. exists entries. repeat split.
      now apply (append_procs_type ty procs [] entries).
    + destruct e; try discriminate. congruence.
  - intros [= <-]. exists []. rewrite app_nil_r. now repeat split.
Qed.

Lemma filter_of_type_same (ty : proc_type) (l : list Proc.t) :
  Forall (fun p => Proc.type p = ty) l ->
  List.filter (of_type ty) (map (set_name w) l) = map (set_name w) l.
Proof.
  induction 1 as [|p l Hp _ IH]; [reflexivity|].
  cbn. unfold of_type at 1. cbn. rewrite Hp, IH. now destruct ty.
Qed.

Lemma filter_of_type_other (ty ty' : proc_type) (l : list Proc.t) :
  ty <> ty' ->
  Forall (fun p => Proc.type p = ty) l ->
  List.filter (of_type ty') (map (set_name w) l) = [].
Proof.
  intros Hne. induction 1 as [|p l Hp _ IH]; [reflexivity|].
  cbn. unfold of_type at 1. cbn. rewrite Hp, IH. now destruct ty, ty'.
Qed.

Lemma processes_group_failing (q : query) (h : handle) (processes : list Proc.t) :
  processes_group w h = Ok processes ->
  processes_group w (failing q h) =
  Ok match q with
     | GetComputeRunningProcesses => List.filter (of_type G) processes
     | GetGraphicsRunningProcesses => List.filter (of_type C) processes
     | _ => processes
     end.
Proof.
  unfold processes_group.
  destruct (process_query C (nvmlDeviceGetComputeRunningProcesses h) [])
    as [compute|] eqn:Hcompute; cbn; [|discriminate].
  destruct (process_query G (nvmlDeviceGetGraphicsRunningProcesses h) compute)
    as [all|] eqn:Hall; cbn; [|discriminate].
  intros [= <-].
  destruct (process_query_app C _ _ _ Hcompute) as (cs & _ & -> & Hcs).
  destruct (process_query_app G _ _ _ Hall) as (gs & Hgs & -> & Hgs_type).
  cbn [List.app] in *.
  destruct q; cbn; rewrite ?Hcompute; cbn; rewrite ?Hall, ?Hgs; cbn;
    try reflexivity.
  - rewrite map_app, List.filter_app.
    rewrite (filter_of_type_other C G cs) by (assumption || discriminate).
    now rewrite (filter_of_type_same G gs).
  - rewrite map_app, List.filter_app.
    rewrite (filter_of_type_other G C gs) by (assumption || discriminate).
    rewrite (filter_of_type_same C cs) by assumption.
    now rewrite app_nil_r.
Qed.

(** On a handle that gave a sample, the failure of one query gives the
    same sample with the fields of that query's group at their
    sentinel. *)
Lemma read_handle_failing (i : nat) (q : query) (h : handle) (stat : Stat.t) :
  read_handle w i h = Ok stat ->
  read_handle w i (failing q h) = Ok (sentinel q stat).
Proof.
  unfold read_handle.
  rewrite name_group_failing, memory_group_failing, utilization_group_failing,
    temperature_group_failing, power_group_failing, fan_group_failing,
    clock_group_failing.
  destruct (memory_group h) as [[[? ?] ?]|]; cbn; [|discriminate].
  destruct (utilization_group h) as [[? ?]|]; cbn; [|discriminate].
  destruct (temperature_group h); cbn; [|discriminate].
  destruct (power_group h) as [[? ?]|]; cbn; [|discriminate].
  destruct (fan_group h); cbn; [|discriminate].
  destruct (clock_group h); cbn; [|discriminate].
  destruct (processes_group w h) as [processes|] eqn:Hprocs; cbn; [|discriminate].
  intros [= <-].
  rewrite (processes_group_failing q h processes Hprocs).
  now destruct q.
Qed.
End Process_queries.

Lemma device_stat_set_handle_ne (w : world) (d i : nat) (h : handle) :
  i <> d -> device_stat (set_handle d h w) i = device_stat w i.
Proof.
  intros Hne. unfold device_stat, set_handle; cbn.
  destruct (decide (i = d)); [contradiction|reflexivity].
Qed.

(** Replacing the answers of device [d] changes the sample of device
    [d] and no other. *)
Lemma stats_loop_set_handle (w : world) (d : nat) (h h' : handle)
    (f : Stat.t -> Stat.t) :
  nvmlDeviceGetHandleByIndex w d = Some h ->
  (forall stat, read_handle w d h = Ok stat -> read_handle w d h' = Ok (f stat)) ->
  forall (len a : nat) (stats : list Stat.t),
    stats_loop w (seq a len) = Ok stats ->
    stats_loop (set_handle d h' w) (seq a len) =
    Ok (if decide (a <= d)%nat then alter f (d - a)%nat stats else stats).
Proof.
  intros Hh Hf. induction len as [|len IH]; intros a stats; cbn [seq stats_loop].
  - intros [= <-]. now destruct (decide (a <= d)%nat).
  - destruct (device_stat w a) as [stat|] eqn:Hstat; cbn; [|discriminate].
    destruct (stats_loop w (seq (S a) len)) as [rest|] eqn:Hrest; cbn;
      [|discriminate].
    intros [= <-]. rewrite (IH (S a) rest Hrest).
    destruct (decide (a = d)) as [->|Hne].
    + rewrite device_stat_set_handle.
      unfold device_stat in Hstat. rewrite Hh in Hstat. cbn in Hstat.
      rewrite (Hf stat Hstat). cbn.
      destruct (decide (S d <= d)%nat); [lia|].
      destruct (decide (d <= d)%nat); [|lia].
      now rewrite Nat.sub_diag.
    + rewrite device_stat_set_handle_ne, Hstat by assumption. cbn.
      destruct (decide (S a <= d)%nat), (decide (a <= d)%nat); try lia;
        [|reflexivity].
      now replace (d - a)%nat with (S (d - S a)) by lia.
Qed.

Section Answers.
Variable w : world.

Lemma append_procs_entries (ty : proc_type) (procs : list nvml_process) :
  forall processes all : list Proc.t,
    append_procs ty procs processes = Ok all ->
    map (set_name w) all = map (set_name w) processes ++ entries w ty (Some procs).
Proof.
  induction procs as [|proc rest IH]; intros processes all; cbn.
  - intros [= <-]. now rewrite app_nil_r.
  - destruct (usedGpuMemory proc) as [m|]; [|discriminate].
    intros Hrest. rewrite (IH _ _ Hrest), map_app, <- app_assoc. reflexivity.
Qed.

Lemma process_query_entries (ty : proc_type) (outcome : option (list nvml_process))
    (processes all : list Proc.t) :
  process_query ty outcome processes = Ok all ->
  map (set_name w) all = map (set_name w) processes ++ entries w ty outcome.
Proof.
  unfold process_query. destruct outcome as [procs|]; cbn.
  - pose proof (append_procs_not_nvml ty procs processes) as Hnot.
    destruct (append_procs ty procs processes) as [all'|e] eqn:Happend; cbn.
    + intros [= <-]. now apply append_procs_entries.
    + destruct e; try discriminate. congruence.
  - intros [= <-]. now rewrite app_nil_r.
Qed.

Lemma processes_group_entries (h : handle) (processes : list Proc.t) :
  processes_group w h = Ok processes ->
  processes =
  entries w C (nvmlDeviceGetComputeRunningProcesses h)
  ++ entries w G (nvmlDeviceGetGraphicsRunningProcesses h).
Proof.
  unfold processes_group.
  destruct (process_query C (nvmlDeviceGetComputeRunningProcesses h) [])
    as [compute|] eqn:Hcompute; cbn; [|discriminate].
  destruct (process_query G (nvmlDeviceGetGraphicsRunningProcesses h) compute)
    as [all|] eqn:Hall; cbn; [|discriminate].
  intros [= <-].
  rewrite (process_query_entries G _ _ _ Hall).
  now rewrite (process_query_entries C _ _ _ Hcompute).
Qed.

(** Whenever the loop body gives a sample, every field of the sample
    holds what its own query answered, or the sentinel when its query
    raised. *)
Lemma read_handle_answers (i : nat) (h : handle) (stat : Stat.t) :
  read_handle w i h = Ok stat -> stat = answers w i h.
Proof.
  unfold read_handle, answers, name_group, memory_group, utilization_group,
    temperature_group, power_group, fan_group, clock_group, py_div.
  destruct (processes_group w h) as [processes|] eqn:Hprocs.
  - apply processes_group_entries in Hprocs as <-.
    destruct (nvmlDeviceGetMemoryInfo h) as [m|]; cbn;
      [destruct (Qeq_bool (inject_Z (total m)) 0); cbn; [discriminate|]|];
      destruct (nvmlDeviceGetUtilizationRates h), (nvmlDeviceGetTemperature h),
        (nvmlDeviceGetPowerUsage h), (nvmlDeviceGetEnforcedPowerLimit h),
        (nvmlDeviceGetFanSpeed h), (nvmlDeviceGetClockInfo h); cbn;
      now intros [= <-].
  - destruct (nvmlDeviceGetMemoryInfo h) as [m|]; cbn;
      [destruct (Qeq_bool (inject_Z (total m)) 0); cbn; [discriminate|]|];
      destruct (nvmlDeviceGetUtilizationRates h), (nvmlDeviceGetTemperature h),
        (nvmlDeviceGetPowerUsage h), (nvmlDeviceGetEnforcedPowerLimit h),
        (nvmlDeviceGetFanSpeed h), (nvmlDeviceGetClockInfo h); cbn;
      discriminate.
Qed.

Lemma stats_loop_answers (indices : list nat) (stats : list Stat.t) :
  stats_loop w indices = Ok stats ->
  Forall2 (fun i stat =>
             exists h, nvmlDeviceGetHandleByIndex w i = Some h
                       /\ stat = answers w i h)
          indices stats.
Proof.
  revert stats. induction indices as [|i rest IH]; intros stats; cbn.
  - intros [= <-]. constructor.
  - destruct (device_stat w i) as [stat|] eqn:Hstat; cbn; [|discriminate].
    destruct (stats_loop w rest) as [later|]; cbn; [|discriminate].
    intros [= <-]. constructor; [|now apply IH].
    unfold device_stat in Hstat.
    destruct (nvmlDeviceGetHandleByIndex w i) as [h|]; cbn in Hstat; [|discriminate].
    exists h. split; [reflexivity|]. now apply read_handle_answers.
Qed.

Lemma get_nvidia_stats_answers (n i : nat) (stats : list Stat.t) (stat : Stat.t) :
  get_nvidia_stats w n = Ok stats ->
  stats !! i = Some stat ->
  exists h, nvmlDeviceGetHandleByIndex w i = Some h /\ stat = answers w i h.
Proof.
  intros Hstats Hi. apply stats_loop_answers in Hstats.
  destruct (Forall2_lookup_r _ _ _ _ _ Hstats Hi) as (j & Hj & Hanswers).
  apply lookup_seq in Hj as [-> _]. exact Hanswers.
Qed.
End Answers.

Lemma failing_unanswered (q : query) (h : handle) :
  answered q h = false -> failing q h = h.
Proof.
  destruct h, q; cbn;
    match goal with
    | |- has_answer ?o = false -> _ => destruct o; [discriminate|reflexivity]
    end.
Qed.

(** C8.  Take a tick whose queries gave the samples [stats], and let
    one query [q] of device [d] fail instead of answering.  The tick
    still gives one sample per device; the sample of every other device
    is the same, and holds in every field what the queries of that
    device answered; the sample of device [d] is the same except for
    the fields of the group of [q], which are at their sentinel
    (["Unknown"], 0, or a process list without the entries of the
    failing process query), and it holds in every other field what the
    query of that field answered on [h]: it is the field-by-field
    reading [answers] of the handle on which only [q] was made to
    fail. *)
Theorem one_failing_query_is_isolated (w : world) (n d : nat) (q : query)
    (h : handle) (stats : list Stat.t) :
  nvmlDeviceGetHandleByIndex w d = Some h ->
  get_nvidia_stats w n = Ok stats ->
  let stats' := alter (sentinel q) d stats in
  get_nvidia_stats (set_handle d (failing q h) w) n = Ok stats'
  /\ length stats' = length stats
  /\ (forall i, i <> d -> stats' !! i = stats !! i)
  /\ (forall stat, stats !! d = Some stat -> stats' !! d = Some (sentinel q stat))
  /\ (forall i stat,
        stats !! i = Some stat ->
        exists h', nvmlDeviceGetHandleByIndex w i = Some h'
                   /\ stat = answers w i h')
  /\ (forall i stat',
        stats' !! i = Some stat' ->
        if decide (i = d)
        then stat' = answers w d (failing q h)
        else exists h', nvmlDeviceGetHandleByIndex w i = Some h'
                        /\ stat' = answers w i h').
Proof.
  intros Hh Hstats stats'.
  assert (get_nvidia_stats (set_handle d (failing q h) w) n = Ok stats') as Hstats'.
  { unfold get_nvidia_stats in *.
    rewrite (stats_loop_set_handle w d h (failing q h) (sentinel q) Hh
               (read_handle_failing w d q h) n 0 stats Hstats).
    cbn. now rewrite Nat.sub_0_r. }
  split; [exact Hstats'|]. split; [apply length_alter|].
  split; [intros i Hne; now apply list_lookup_alter_ne|].
  split.
  { intros stat Hstat. subst stats'.
    now rewrite list_lookup_alter, decide_True, Hstat by reflexivity. }
  split.
  { intros i stat Hi. exact (get_nvidia_stats_answers w n i stats stat Hstats Hi). }
  intros i stat' Hi.
  destruct (get_nvidia_stats_answers _ n i stats' stat' Hstats' Hi)
    as (h' & Hh' & Hanswers).
  cbn in Hh'. destruct (decide (i = d)) as [->|Hne].
  - injection Hh' as <-. exact Hanswers.
  - exists h'. split; [exact Hh'|exact Hanswers].
Qed.

(** Two healthy devices, the temperature query of the first failing:
    the first sample has temperature 0 and still the fan speed, the
    utilization and the power draw that were answered; the second is
    untouched. *)
Lemma one_failing_query_is_isolated_witness :
  exists stats stat0 stat1,
    get_nvidia_stats (driver [healthy; healthy]) 2 = Ok stats
    /\ get_nvidia_stats
         (set_handle 0 (failing GetTemperature healthy) (driver [healthy; healthy])) 2
       = Ok [stat0; stat1]
    /\ Stat.temperature stat0 = 0
    /\ Stat.fan_speed stat0 = inject_Z 30
    /\ Stat.utilization stat0 = inject_Z 40
    /\ Stat.power_draw stat0 = inject_Z 120000 / 1000
    /\ Stat.temperature stat1 = inject_Z 65.
Proof.
  destruct (get_nvidia_stats (driver [healthy; healthy]) 2) as [stats|e] eqn:Hstats;
    [|vm_compute in Hstats; discriminate].
  assert (exists s0 s1, stats = [s0; s1]) as (s0 & s1 & ->).
  { pose proof Hstats as Hcopy. vm_compute in Hcopy. injection Hcopy as <-. eauto. }
  pose proof (one_failing_query_is_isolated (driver [healthy; healthy]) 2 0
                GetTemperature healthy [s0; s1] eq_refl Hstats) as H.
  cbn zeta in H. destruct H as (Hfail & _ & _ & _ & _ & Hanswers).
  exists [s0; s1], (sentinel GetTemperature s0), s1.
  split; [reflexivity|]. split; [exact Hfail|].
  pose proof (Hanswers 0%nat _ eq_refl) as H0. cbn in H0.
  pose proof (Hanswers 1%nat _ eq_refl) as H1. cbn in H1.
  destruct H1 as (h1 & [= <-] & H1).
  rewrite H0, H1. repeat split.
Defined.

(** * A failed query seen by the alert engine, for every alert metric *)

Lemma sentinel_feeds (q : query) (key : metric) (stat : Stat.t) :
  feeds q = Some key -> StatMetric.get key (sentinel q stat) = 0.
Proof. destruct q; cbn; intros [= <-]; reflexivity. Qed.

(** C9.  Let a query that feeds an alert metric fail on a device (the
    temperature query for the temperature, the utilization query for
    the utilization, the memory query for the memory utilization,
    either power query for the power draw) while the flag of that
    metric is armed, the threshold [T] of the metric being
    non-negative.  The sample of that device carries 0 under that
    metric; evaluating it clears the flag and emits no alert for the
    metric, which is what the alert engine does with any genuine
    reading at or below [T]; and the next sample evaluated with a value
    above [T] emits an alert for the metric again.  For the temperature
    the whole sample is the very one a reading of 0 would have given. *)
Theorem failed_query_clears_flag (w : world) (i : nat) (h : handle)
    (q : query) (key : metric) (stat : Stat.t) (thresholds : Thresholds.t)
    (s : AlertStates.t) :
  nvmlDeviceGetHandleByIndex w i = Some h ->
  answered q h = false ->
  feeds q = Some key ->
  device_stat w i = Ok stat ->
  0 <= Thresholds.get key thresholds ->
  AlertStates.get key s = true ->
  let T := Thresholds.get key thresholds in
  let cleared := (check_stat thresholds stat s).1 in
  StatMetric.get key stat = 0
  /\ AlertStates.get key cleared = false
  /\ about key (check_stat thresholds stat s).2 = []
  /\ (forall low : Stat.t,
        py_le (StatMetric.get key low) T = true ->
        AlertStates.get key (check_stat thresholds low s).1
        = AlertStates.get key cleared
        /\ about key (check_stat thresholds low s).2
           = about key (check_stat thresholds stat s).2)
  /\ (forall next : Stat.t,
        py_gt (StatMetric.get key next) T = true ->
        about key (check_stat thresholds next cleared).2 =
        [{| alert_gpu := Stat.gpu_index next; alert_metric := key;
            alert_value := StatMetric.get key next; alert_threshold := T |}])
  /\ (q = GetTemperature ->
      device_stat (set_handle i (with_temperature (Some 0%Z) h) w) i = Ok stat).
Proof.
  intros Hh Hfailed Hfeeds Hstat HT Harmed T cleared.
  unfold device_stat in Hstat. rewrite Hh in Hstat. cbn in Hstat.
  assert (StatMetric.get key stat = 0) as Hzero.
  { pose proof (read_handle_failing w i q h stat Hstat) as Hsentinel.
    rewrite (failing_unanswered q h Hfailed), Hstat in Hsentinel.
    injection Hsentinel as Hsentinel.
    rewrite Hsentinel. now apply sentinel_feeds. }
  assert (py_le 0 T = true) as Hle by (now apply Qle_bool_iff).
  assert (forall low : Stat.t,
             py_le (StatMetric.get key low) T = true ->
             AlertStates.get key (check_stat thresholds low s).1 = false
             /\ about key (check_stat thresholds low s).2 = []) as Hlow.
  { intros low Hlow.
    rewrite (check_stat_flag thresholds key low s),
      (check_stat_about thresholds key low s).
    unfold hysteresis. rewrite Harmed, andb_false_r. fold T.
    now rewrite Hlow. }
  destruct (Hlow stat) as [Hcleared Hsilent]; [now rewrite Hzero|].
  fold cleared in Hcleared.
  repeat split.
  - exact Hzero.
  - exact Hcleared.
  - exact Hsilent.
  - rewrite Hcleared. now apply Hlow.
  - rewrite Hsilent. now apply Hlow.
  - intros next Hbreach.
    rewrite (check_stat_about thresholds key next cleared).
    unfold hysteresis. fold T. now rewrite Hcleared, Hbreach.
  - intros ->. cbn in Hfailed.
    rewrite device_stat_set_handle, read_handle_temperature_zero; [assumption|].
    now destruct (nvmlDeviceGetTemperature h).
Qed.

(** The healthy device with a failing power-usage query, the power flag
    armed by an earlier breach, thresholds at their defaults. *)
Lemma failed_query_clears_flag_witness :
  let h := failing GetPowerUsage healthy in
  let armed := AlertStates.set PowerDraw true AlertStates.init in
  exists stat,
    device_stat (driver [h]) 0 = Ok stat
    /\ Stat.power_draw stat = 0
    /\ AlertStates.power_draw (check_stat default_thresholds stat armed).1 = false
    /\ about PowerDraw (check_stat default_thresholds stat armed).2 = [].
Proof.
  intros h armed.
  destruct (device_stat (driver [h]) 0) as [stat|e] eqn:Hstat;
    [|vm_compute in Hstat; discriminate].
  exists stat. split; [reflexivity|].
  assert (0 <= Thresholds.get PowerDraw default_thresholds) as HT
      by (vm_compute; discriminate).
  destruct (failed_query_clears_flag (driver [h]) 0%nat h GetPowerUsage PowerDraw
              stat default_thresholds armed eq_refl eq_refl eq_refl Hstat HT
              eq_refl)
    as (Hzero & Hcleared & Hsilent & _).
  repeat split; assumption.
Defined.

(** * Ticks and component runs *)

Lemma notifications_app (l1 l2 : list event) :
  notifications (l1 ++ l2) = notifications l1 ++ notifications l2.
Proof. unfold notifications. apply flat_map_app. Qed.

Lemma notifications_other_stage (n : nat) (l : list event) :
  n <> 3%nat -> Forall (fun e => stage e = n) l -> notifications l = [].
Proof.
  intros Hn. unfold notifications.
  induction 1 as [|e l He _ IH]; [reflexivity|].
  cbn [flat_map]. rewrite IH. destruct e; cbn in *; congruence.
Qed.

Lemma notifications_trigger_alerts (sound : bool) (alerts : list alert) :
  notifications (trigger_alerts sound alerts) = alerts.
Proof.
  induction alerts as [|a rest IH]; [reflexivity|].
  cbn [trigger_alerts flat_map]. rewrite notifications_app.
  fold (trigger_alerts sound rest). rewrite IH. now destruct sound.
Qed.

(** A tick whose sample is [stats] leaves the flags of [check_alerts]
    and the buffers of [update_dashboard_graphs] on [stats], notifies
    the alerts of [check_alerts], and keeps the configuration. *)
Lemma update_stats_components (w : world) (self : GPU_Monitor_App)
    (stats : list Stat.t) :
  get_nvidia_stats w (device_count self) = Ok stats ->
  let r := update_stats w self in
  alert_states r.1 = (check_alerts (thresholds self) stats (alert_states self)).1
  /\ notifications r.2
     = (check_alerts (thresholds self) stats (alert_states self)).2
  /\ data_buffers r.1 = (update_dashboard_graphs stats (data_buffers self)).1.1
  /\ thresholds r.1 = thresholds self
  /\ device_count r.1 = device_count self.
Proof.
  intros Hstats. unfold update_stats. rewrite Hstats.
  rewrite check_alerts_events_alerts.
  pose proof (update_dashboard_graphs_stage stats (data_buffers self)) as Hgraphs.
  destruct (update_dashboard_graphs stats (data_buffers self))
    as [[bufs graph_evs] raised].
  cbn in *. repeat split.
  change (notifications
            ([Sampled stats; StatsTable stats] ++
             process_tables_loop (device_count self) 0 stats ++
             trigger_alerts (sound_alert self)
               (check_alerts (thresholds self) stats (alert_states self)).2 ++
             graph_evs ++ print_error raised)
          = (check_alerts (thresholds self) stats (alert_states self)).2).
  rewrite !notifications_app, notifications_trigger_alerts.
  rewrite (notifications_other_stage 2 _ ltac:(lia)
             (process_tables_loop_stage (device_count self) 0 stats)).
  rewrite (notifications_other_stage 4 _ ltac:(lia) Hgraphs).
  assert (notifications (print_error raised) = []) as -> by now destruct raised.
  now rewrite !app_nil_r.
Qed.

(** X20.  The runs of the alert engine and of the history store taken
    alone are what the timer does, as long as every tick gets its
    sample: the alerts notified tick by tick are those of [check_alerts]
    on the samples, flags carried over, and the buffers at the end are
    those of [update_dashboard_graphs] on the samples in order. *)
Lemma run_components (ws : list world) (ticks : list (list Stat.t)) :
  forall self : GPU_Monitor_App,
    Forall2 (fun w stats => get_nvidia_stats w (device_count self) = Ok stats)
            ws ticks ->
    map notifications (run ws self).2
    = alert_ticks (thresholds self) ticks (alert_states self)
    /\ data_buffers (run ws self).1 = graph_ticks ticks (data_buffers self).
Proof.
  revert ticks. induction ws as [|w rest IH]; intros ticks self Hall.
  - inversion Hall; subst. now split.
  - inversion Hall as [|? stats ? ticks' Hstats Hrest]; subst.
    destruct (update_stats_components w self stats Hstats)
      as (Hflags & Halerts & Hbufs & Hthr & Hcount).
    cbn [run alert_ticks graph_ticks].
    destruct (update_stats w self) as [self' evs]. cbn [fst snd] in *.
    specialize (IH ticks' self'). rewrite Hcount, Hthr, Hflags, Hbufs in IH.
    specialize (IH Hrest).
    destruct (run rest self') as [self'' later].
    destruct (check_alerts (thresholds self) stats (alert_states self))
      as [flags alerts].
    cbn [fst snd map] in *. destruct IH as [IHalerts IHbufs].
    now rewrite Halerts, IHalerts, IHbufs.
Qed.

(** * More on the alert engine *)

Lemma hysteresis_flag (gpu_index : nat) (key : metric) (value threshold : Q)
    (armed : bool) :
  (hysteresis gpu_index key value threshold armed).1 = py_gt value threshold.
Proof.
  unfold hysteresis. rewrite py_gt_le.
  now destruct (py_le value threshold), armed.
Qed.

Lemma check_alerts_app (thresholds : Thresholds.t) (l1 l2 : list Stat.t)
    (s : AlertStates.t) :
  check_alerts thresholds (l1 ++ l2) s =
  let r1 := check_alerts thresholds l1 s in
  let r2 := check_alerts thresholds l2 r1.1 in
  (r2.1, r1.2 ++ r2.2).
Proof.
  revert s. induction l1 as [|stat l1 IH]; intros s; cbn.
  - now destruct (check_alerts thresholds l2 s).
  - destruct (check_stat thresholds stat s) as [s' alerts]. rewrite IH.
    destruct (check_alerts thresholds l1 s') as [s1 a1]. cbn.
    destruct (check_alerts thresholds l2 s1) as [s2 a2]. cbn.
    now rewrite app_assoc.
Qed.

(** X1.  After [check_alerts] the flag of every metric says whether the
    last sample of the list was above the threshold, and nothing else:
    it does not depend on the flags before nor on the samples of the
    devices that came earlier in the list. *)
Theorem flags_follow_the_last_sample (thresholds : Thresholds.t) (key : metric)
    (stats : list Stat.t) (last : Stat.t) (s : AlertStates.t) :
  AlertStates.get key (check_alerts thresholds (stats ++ [last]) s).1 =
  py_gt (StatMetric.get key last) (Thresholds.get key thresholds).
Proof.
  rewrite check_alerts_app. cbn.
  destruct (check_alerts thresholds stats s) as [s1 a1]. cbn.
  pose proof (check_stat_flag thresholds key last s1) as Hflag.
  destruct (check_stat thresholds last s1) as [s2 a2]. cbn in *.
  now rewrite Hflag, hysteresis_flag.
Qed.

Lemma check_alerts_rising_edges (thresholds : Thresholds.t) (key : metric)
    (stats : list Stat.t) (s : AlertStates.t) :
  about key (check_alerts thresholds stats s).2 =
  rising_edges key (Thresholds.get key thresholds) (AlertStates.get key s) stats
  /\ AlertStates.get key (check_alerts thresholds stats s).1 =
     match last stats with
     | Some stat => py_gt (StatMetric.get key stat) (Thresholds.get key thresholds)
     | None => AlertStates.get key s
     end.
Proof.
  revert s. induction stats as [|stat rest IH]; intros s; [now split|].
  cbn [check_alerts rising_edges].
  pose proof (check_stat_flag thresholds key stat s) as Hflag.
  pose proof (check_stat_about thresholds key stat s) as Habout.
  destruct (check_stat thresholds stat s) as [s' alerts].
  destruct (IH s') as [IHabout IHflag].
  destruct (check_alerts thresholds rest s') as [s'' later].
  cbn [fst snd] in *.
  rewrite hysteresis_flag in Hflag. rewrite Hflag in IHabout, IHflag.
  split.
  - rewrite about_app, Habout, IHabout. unfold hysteresis.
    destruct (py_gt _ _ && negb _); [reflexivity|].
    now destruct (py_le _ _).
  - rewrite IHflag, last_cons. now destruct (last rest).
Qed.

(** X2.  The alerts of a metric are the rising edges of one stream in
    which the samples of all devices and of all ticks follow each
    other: a sample alerts exactly when it is above the threshold and
    the sample just before it in that stream, whatever its device, was
    not. *)
Theorem alerts_are_rising_edges_of_one_stream (thresholds : Thresholds.t)
    (key : metric) (ticks : list (list Stat.t)) (s : AlertStates.t) :
  about key (concat (alert_ticks thresholds ticks s)) =
  rising_edges key (Thresholds.get key thresholds) (AlertStates.get key s)
               (concat ticks).
Proof.
  assert (forall (l1 l2 : list Stat.t) (armed : bool),
             rising_edges key (Thresholds.get key thresholds) armed (l1 ++ l2) =
             rising_edges key (Thresholds.get key thresholds) armed l1 ++
             rising_edges key (Thresholds.get key thresholds)
               match last l1 with
               | Some stat =>
                   py_gt (StatMetric.get key stat) (Thresholds.get key thresholds)
               | None => armed
               end l2) as Happ.
  { induction l1 as [|stat l1 IH]; intros l2 armed; [reflexivity|].
    cbn [rising_edges List.app]. rewrite IH, <- app_assoc, last_cons.
    now destruct (last l1). }
  revert s. induction ticks as [|stats rest IH]; intros s; [reflexivity|].
  cbn [alert_ticks concat].
  destruct (check_alerts_rising_edges thresholds key stats s) as [Habout Hflag].
  destruct (check_alerts thresholds stats s) as [s' alerts]. cbn [fst snd] in *.
  cbn [concat]. now rewrite about_app, Habout, IH, Hflag, Happ.
Qed.

Lemma check_stat_alerts (thresholds : Thresholds.t) (stat : Stat.t)
    (s : AlertStates.t) (a : alert) :
  In a (check_stat thresholds stat s).2 ->
  alert_gpu a = Stat.gpu_index stat
  /\ alert_value a = StatMetric.get (alert_metric a) stat
  /\ alert_threshold a = Thresholds.get (alert_metric a) thresholds
  /\ alert_threshold a < alert_value a.
Proof.
  intros Hin.
  assert (a ∈ about (alert_metric a) (check_stat thresholds stat s).2) as Habout.
  { unfold about. apply list_elem_of_filter. split; [reflexivity|].
    now apply list_elem_of_In. }
  rewrite check_stat_about in Habout. unfold hysteresis in Habout.
  destruct (py_gt _ _) eqn:Hgt; cbn in Habout.
  - destruct (negb _); cbn in Habout.
    + apply list_elem_of_singleton in Habout.
      set (m := alert_metric a) in *. rewrite Habout. cbn. repeat split.
      apply Qnot_le_lt. intros Hle. apply Qle_bool_iff in Hle.
      unfold py_gt in Hgt. rewrite Hle in Hgt. discriminate.
    + destruct (py_le _ _); now apply not_elem_of_nil in Habout.
  - destruct (py_le _ _); now apply not_elem_of_nil in Habout.
Qed.

(** X3.  Every alert of [check_alerts] is a real breach of a sample of
    the list: it names the device of that sample, carries the value of
    that sample under its metric and the configured threshold of that
    metric, and the value is strictly above the threshold. *)
Theorem alerts_are_breaches (thresholds : Thresholds.t) (stats : list Stat.t)
    (s : AlertStates.t) (a : alert) :
  In a (check_alerts thresholds stats s).2 ->
  exists stat,
    In stat stats
    /\ alert_gpu a = Stat.gpu_index stat
    /\ alert_value a = StatMetric.get (alert_metric a) stat
    /\ alert_threshold a = Thresholds.get (alert_metric a) thresholds
    /\ alert_threshold a < alert_value a.
Proof.
  revert s. induction stats as [|stat rest IH]; intros s; cbn; [contradiction|].
  pose proof (check_stat_alerts thresholds stat s a) as Hstat.
  destruct (check_stat thresholds stat s) as [s' alerts].
  specialize (IH s').
  destruct (check_alerts thresholds rest s') as [s'' later]. cbn in *.
  intros Hin. apply in_app_or in Hin as [Hin|Hin].
  - exists stat. split; [now left|]. now apply Hstat.
  - destruct (IH Hin) as (stat' & Hin' & H). exists stat'. split; [now right|exact H].
Qed.

Lemma alerts_are_breaches_witness :
  let hot := with_value Temperature 85 (idle 3) in
  let a := {| alert_gpu := 3; alert_metric := Temperature;
              alert_value := 85; alert_threshold := 80 |} in
  exists stat,
    In stat [idle 0; hot]
    /\ alert_gpu a = Stat.gpu_index stat
    /\ alert_value a = StatMetric.get (alert_metric a) stat
    /\ alert_threshold a = Thresholds.get (alert_metric a) default_thresholds
    /\ alert_threshold a < alert_value a.
Proof.
  intros hot a.
  apply (alerts_are_breaches default_thresholds [idle 0; hot] AlertStates.init a).
  vm_compute. left. reflexivity.
Defined.

Lemma sounds_app (l1 l2 : list event) : sounds (l1 ++ l2) = (sounds l1 + sounds l2)%nat.
Proof. unfold sounds. now rewrite List.filter_app, length_app. Qed.

Lemma sounds_other_stage (n : nat) (l : list event) :
  n <> 3%nat -> Forall (fun e => stage e = n) l -> sounds l = 0%nat.
Proof.
  intros Hn. unfold sounds.
  induction 1 as [|e l He _ IH]; [reflexivity|].
  cbn [List.filter]. destruct e; cbn in *; congruence.
Qed.

Lemma sounds_trigger_alerts (sound : bool) (alerts : list alert) :
  sounds (trigger_alerts sound alerts) = if sound then length alerts else 0%nat.
Proof.
  induction alerts as [|a rest IH]; [now destruct sound|].
  cbn [trigger_alerts flat_map]. rewrite sounds_app.
  fold (trigger_alerts sound rest). rewrite IH. now destruct sound.
Qed.

(** X4.  What reaches the alert sinks in a tick: when the sample is
    taken, every alert of [check_alerts] is notified once, in the order
    in which it was raised, and the sound is played once per alert when
    sound alerts are on and never when they are off; when the sample
    raises, nothing is notified or played. *)
Theorem tick_notifies_each_alert_once (w : world) (self : GPU_Monitor_App) :
  let trace := (update_stats w self).2 in
  match get_nvidia_stats w (device_count self) with
  | Ok stats =>
      let alerts := (check_alerts (thresholds self) stats (alert_states self)).2 in
      notifications trace = alerts
      /\ sounds trace = (if sound_alert self then length alerts else 0%nat)
  | Raise _ => notifications trace = [] /\ sounds trace = 0%nat
  end.
Proof.
  intros trace. subst trace. unfold update_stats.
  destruct (get_nvidia_stats w (device_count self)) as [stats|e]; [|now split].
  rewrite check_alerts_events_alerts.
  pose proof (update_dashboard_graphs_stage stats (data_buffers self)) as Hgraphs.
  destruct (update_dashboard_graphs stats (data_buffers self))
    as [[bufs graph_evs] raised].
  pose proof (process_tables_loop_stage (device_count self) 0 stats) as Hprocs.
  assert (Forall (fun e => stage e = 5%nat) (print_error raised)) as Herr
      by (destruct raised; repeat constructor).
  cbn [fst snd] in *.
  set (alerts := (check_alerts (thresholds self) stats (alert_states self)).2).
  change (notifications
            ([Sampled stats; StatsTable stats] ++
             process_tables_loop (device_count self) 0 stats ++
             trigger_alerts (sound_alert self) alerts ++
             graph_evs ++ print_error raised) = alerts
          /\ sounds
               ([Sampled stats; StatsTable stats] ++
                process_tables_loop (device_count self) 0 stats ++
                trigger_alerts (sound_alert self) alerts ++
                graph_evs ++ print_error raised)
             = (if sound_alert self then length alerts else 0%nat)).
  rewrite !notifications_app, !sounds_app.
  rewrite notifications_trigger_alerts, sounds_trigger_alerts.
  rewrite (notifications_other_stage 2 _ ltac:(lia) Hprocs),
    (notifications_other_stage 4 _ ltac:(lia) Hgraphs),
    (notifications_other_stage 5 _ ltac:(lia) Herr).
  rewrite (sounds_other_stage 2 _ ltac:(lia) Hprocs),
    (sounds_other_stage 4 _ ltac:(lia) Hgraphs),
    (sounds_other_stage 5 _ ltac:(lia) Herr).
  cbn. rewrite app_nil_r. split; [reflexivity|lia].
Qed.

(** * More on the adapter *)

Lemma read_handle_gpu_index_name (w : world) (i : nat) (h : handle) (stat : Stat.t) :
  read_handle w i h = Ok stat ->
  Stat.gpu_index stat = i /\ Stat.name stat = name_group h.
Proof.
  unfold read_handle.
  destruct (memory_group h) as [[[? ?] ?]|]; cbn; [|discriminate].
  destruct (utilization_group h) as [[? ?]|]; cbn; [|discriminate].
  destruct (temperature_group h); cbn; [|discriminate].
  destruct (power_group h) as [[? ?]|]; cbn; [|discriminate].
  do 3 next_group. now intros [= <-].
Qed.

Lemma stats_loop_gpu_index (w : world) (indices : list nat) (stats : list Stat.t) :
  stats_loop w indices = Ok stats -> map Stat.gpu_index stats = indices.
Proof.
  revert stats. induction indices as [|i rest IH]; intros stats; cbn.
  - now intros [= <-].
  - destruct (device_stat w i) as [stat|] eqn:Hstat; cbn; [|discriminate].
    destruct (stats_loop w rest) as [later|]; cbn; [|discriminate].
    intros [= <-]. cbn. rewrite (IH later eq_refl). f_equal.
    unfold device_stat in Hstat.
    destruct (nvmlDeviceGetHandleByIndex w i) as [h|]; cbn in Hstat; [|discriminate].
    now apply read_handle_gpu_index_name in Hstat.
Qed.

(** X5.  When [get_nvidia_stats] returns, it returns one sample per
    device, in index order: the sample at position [i] carries
    [gpu_index = i]. *)
Theorem samples_are_in_index_order (w : world) (n : nat) (stats : list Stat.t) :
  get_nvidia_stats w n = Ok stats ->
  length stats = n /\ map Stat.gpu_index stats = seq 0 n.
Proof.
  intros Hstats. apply stats_loop_gpu_index in Hstats. split; [|exact Hstats].
  rewrite <- (length_map Stat.gpu_index), Hstats. apply length_seq.
Qed.

Lemma samples_are_in_index_order_witness :
  exists stats,
    get_nvidia_stats (driver [healthy; healthy; healthy]) 3 = Ok stats
    /\ length stats = 3%nat /\ map Stat.gpu_index stats = [0; 1; 2]%nat.
Proof.
  destruct (get_nvidia_stats (driver [healthy; healthy; healthy]) 3)
    as [stats|e] eqn:Hstats; [|vm_compute in Hstats; discriminate].
  exists stats. split; [reflexivity|].
  exact (samples_are_in_index_order _ 3 stats Hstats).
Defined.

Lemma Qeq_bool_inject_Z_0 (t : Z) : Qeq_bool (inject_Z t) 0 = (t =? 0)%Z.
Proof. now destruct t. Qed.

Lemma memory_group_outcome (h : handle) :
  if memory_answer_ok h
  then exists figures, memory_group h = Ok figures
  else memory_group h = Raise ZeroDivisionError.
Proof.
  unfold memory_answer_ok, memory_group.
  destruct (nvmlDeviceGetMemoryInfo h) as [m|]; cbn; [|eauto].
  unfold py_div. rewrite Qeq_bool_inject_Z_0.
  destruct (total m =? 0)%Z; cbn; eauto.
Qed.

Lemma append_procs_outcome (ty : proc_type) (procs : list nvml_process)
    (processes : list Proc.t) :
  if procs_answer_ok (Some procs)
  then exists entries, append_procs ty procs processes = Ok entries
  else append_procs ty procs processes = Raise TypeError.
Proof.
  revert processes. induction procs as [|proc rest IH]; intros processes; cbn.
  - eauto.
  - destruct (usedGpuMemory proc) as [m|]; cbn; [|reflexivity]. apply IH.
Qed.

Lemma process_query_outcome (ty : proc_type) (outcome : option (list nvml_process))
    (processes : list Proc.t) :
  if procs_answer_ok outcome
  then exists entries, process_query ty outcome processes = Ok entries
  else process_query ty outcome processes = Raise TypeError.
Proof.
  unfold process_query. destruct outcome as [procs|]; cbn; [|eauto].
  pose proof (append_procs_outcome ty procs processes) as H. cbn in H.
  destruct (forallb _ procs).
  - destruct H as [entries ->]. cbn. eauto.
  - now rewrite H.
Qed.

Lemma processes_group_outcome (w : world) (h : handle) :
  if procs_answer_ok (nvmlDeviceGetComputeRunningProcesses h)
     && procs_answer_ok (nvmlDeviceGetGraphicsRunningProcesses h)
  then exists processes, processes_group w h = Ok processes
  else processes_group w h = Raise TypeError.
Proof.
  unfold processes_group.
  pose proof (process_query_outcome C (nvmlDeviceGetComputeRunningProcesses h) [])
    as Hc.
  destruct (procs_answer_ok (nvmlDeviceGetComputeRunningProcesses h)); cbn.
  - destruct Hc as [compute ->]. cbn.
    pose proof (process_query_outcome G (nvmlDeviceGetGraphicsRunningProcesses h)
                  compute) as Hg.
    destruct (procs_answer_ok (nvmlDeviceGetGraphicsRunningProcesses h)).
    + destruct Hg as [all ->]. cbn. eauto.
    + now rewrite Hg.
  - now rewrite Hc.
Qed.

(** The four groups that cannot raise. *)
Lemma quiet_groups (h : handle) :
  (exists u, utilization_group h = Ok u)
  /\ (exists t, temperature_group h = Ok t)
  /\ (exists p, power_group h = Ok p)
  /\ (exists f, fan_group h = Ok f)
  /\ (exists c, clock_group h = Ok c).
Proof.
  unfold utilization_group, temperature_group, power_group, fan_group, clock_group.
  destruct (nvmlDeviceGetUtilizationRates h), (nvmlDeviceGetTemperature h),
    (nvmlDeviceGetPowerUsage h), (nvmlDeviceGetEnforcedPowerLimit h),
    (nvmlDeviceGetFanSpeed h), (nvmlDeviceGetClockInfo h); cbn; eauto 10.
Qed.

Lemma read_handle_outcome (w : world) (i : nat) (h : handle) :
  if readable h
  then exists stat, read_handle w i h = Ok stat
  else exists e, read_handle w i h = Raise e /\ e <> NVMLError.
Proof.
  unfold readable, read_handle.
  destruct (quiet_groups h)
    as ([[? ?] ->] & [? ->] & [[? ?] ->] & [? ->] & [? ->]).
  pose proof (memory_group_outcome h) as Hm.
  pose proof (processes_group_outcome w h) as Hp.
  destruct (memory_answer_ok h); cbn.
  - destruct Hm as [[[? ?] ?] ->]. cbn.
    destruct (procs_answer_ok _ && procs_answer_ok _).
    + destruct Hp as [processes ->]. cbn. eauto.
    + rewrite Hp. cbn. eauto.
  - rewrite Hm. cbn. eauto.
Qed.

Lemma device_stat_outcome (w : world) (i : nat) :
  (exists stat, device_stat w i = Ok stat) <->
  exists h, nvmlDeviceGetHandleByIndex w i = Some h /\ readable h = true.
Proof.
  unfold device_stat. destruct (nvmlDeviceGetHandleByIndex w i) as [h|]; cbn.
  - pose proof (read_handle_outcome w i h) as H. split.
    + intros [stat Hstat]. exists h. split; [reflexivity|].
      destruct (readable h); [reflexivity|].
      destruct H as (e & He & _). congruence.
    + intros (h' & [= <-] & Hr). now rewrite Hr in H.
  - split; [intros [? [=]]|intros (h & [=] & _)].
Qed.

(** X6.  [get_nvidia_stats] returns exactly when every device below
    [device_count] gives its handle, no memory query answers a total of
    0 and no listed process lacks its memory figure.  Every other
    failure of a query is absorbed; any of these three makes the whole
    call raise, for all devices. *)
Theorem adapter_returns_iff (w : world) (n : nat) :
  (exists stats, get_nvidia_stats w n = Ok stats) <->
  (forall i, (i < n)%nat ->
     exists h, nvmlDeviceGetHandleByIndex w i = Some h /\ readable h = true).
Proof.
  unfold get_nvidia_stats.
  assert (forall indices,
             (exists stats, stats_loop w indices = Ok stats) <->
             Forall (fun i => exists stat, device_stat w i = Ok stat) indices)
    as Hloop.
  { induction indices as [|i rest IH]; cbn.
    - split; [constructor|eauto].
    - split.
      + intros [stats Hstats].
        destruct (device_stat w i) as [stat|] eqn:Hstat; cbn in Hstats;
          [|discriminate].
        destruct (stats_loop w rest) as [later|] eqn:Hlater; cbn in Hstats;
          [|discriminate].
        constructor; [eauto|]. apply IH. eauto.
      + intros Hall. inversion Hall as [|? ? [stat Hstat] Hrest]; subst.
        apply IH in Hrest as [later Hlater]. rewrite Hstat, Hlater. cbn. eauto. }
  rewrite Hloop, Forall_seq. split.
  - intros H i Hi. apply device_stat_outcome, H. lia.
  - intros H i Hi. apply device_stat_outcome, H. lia.
Qed.

Lemma append_procs_listed (ty : proc_type) (l : list (Z * Z)) (processes : list Proc.t) :
  append_procs ty (map listed l) processes =
  Ok (processes ++
      map (fun p => {| Proc.pid := p.1; Proc.used_memory := inject_Z p.2 / MiB;
                       Proc.type := ty; Proc.name := ""%string |}) l).
Proof.
  revert processes. induction l as [|p l IH]; intros processes; cbn.
  - now rewrite app_nil_r.
  - rewrite IH. now rewrite <- app_assoc.
Qed.

Lemma process_query_listed (ty : proc_type) (answer : option (list (Z * Z)))
    (processes : list Proc.t) :
  process_query ty (option_map (map listed) answer) processes =
  Ok (processes ++
      map (fun p => {| Proc.pid := p.1; Proc.used_memory := inject_Z p.2 / MiB;
                       Proc.type := ty; Proc.name := ""%string |})
          (default [] answer)).
Proof.
  unfold process_query. destruct answer as [l|]; cbn.
  - now rewrite append_procs_listed.
  - now rewrite app_nil_r.
Qed.

Lemma read_handle_processes (w : world) (i : nat) (h : handle) (stat : Stat.t) :
  read_handle w i h = Ok stat ->
  processes_group w h = Ok (Stat.processes stat).
Proof.
  unfold read_handle.
  destruct (memory_group h) as [[[? ?] ?]|]; cbn; [|discriminate].
  destruct (utilization_group h) as [[? ?]|]; cbn; [|discriminate].
  destruct (temperature_group h); cbn; [|discriminate].
  destruct (power_group h) as [[? ?]|]; cbn; [|discriminate].
  do 3 next_group. now intros [= <-].
Qed.

(** X7.  The process list of a sample is the compute processes in the
    order of the driver, each of type [C], followed by the graphics
    processes in the order of the driver, each of type [G]; memory is in
    MiB and the name is that of [get_process_name] for the pid.  A query
    that raised contributes nothing.  Nothing is merged: a pid listed by
    both queries has two entries. *)
Theorem processes_are_compute_then_graphics (w : world) (i : nat) (h : handle)
    (compute graphics : option (list (Z * Z))) (stat : Stat.t) :
  nvmlDeviceGetHandleByIndex w i = Some h ->
  nvmlDeviceGetComputeRunningProcesses h = option_map (map listed) compute ->
  nvmlDeviceGetGraphicsRunningProcesses h = option_map (map listed) graphics ->
  device_stat w i = Ok stat ->
  Stat.processes stat =
  map (named_entry w C) (default [] compute)
  ++ map (named_entry w G) (default [] graphics).
Proof.
  intros Hh Hc Hg Hstat. unfold device_stat in Hstat. rewrite Hh in Hstat.
  cbn in Hstat. apply read_handle_processes in Hstat.
  unfold processes_group in Hstat. rewrite Hc, Hg in Hstat.
  rewrite !process_query_listed in Hstat. cbn in Hstat.
  rewrite process_query_listed in Hstat. cbn in Hstat.
  injection Hstat as <-. rewrite map_app, !map_map. reflexivity.
Qed.

(** The healthy device with pid 17 listed by both queries. *)
Lemma processes_are_compute_then_graphics_witness :
  let h :=
    failing GetName
      {| nvmlDeviceGetName := None;
         nvmlDeviceGetMemoryInfo := nvmlDeviceGetMemoryInfo healthy;
         nvmlDeviceGetUtilizationRates := None;
         nvmlDeviceGetTemperature := None;
         nvmlDeviceGetPowerUsage := None;
         nvmlDeviceGetEnforcedPowerLimit := None;
         nvmlDeviceGetFanSpeed := None;
         nvmlDeviceGetClockInfo := None;
         nvmlDeviceGetComputeRunningProcesses :=
           Some (map listed [(17, 1048576); (4242, 2097152)]%Z);
         nvmlDeviceGetGraphicsRunningProcesses :=
           Some (map listed [(17, 3145728)]%Z) |} in
  exists stat,
    device_stat (driver [h]) 0 = Ok stat
    /\ map (fun p => (Proc.pid p, Proc.type p)) (Stat.processes stat)
       = [(17, C); (4242, C); (17, G)]%Z.
Proof.
  intros h.
  destruct (device_stat (driver [h]) 0) as [stat|e] eqn:Hstat;
    [|vm_compute in Hstat; discriminate].
  exists stat. split; [reflexivity|].
  rewrite (processes_are_compute_then_graphics (driver [h]) 0 h
             (Some [(17, 1048576); (4242, 2097152)]%Z)
             (Some [(17, 3145728)]%Z) stat eq_refl eq_refl eq_refl Hstat).
  reflexivity.
Defined.

(** X8.  [get_gpu_name] never raises.  It gives the name that
    [get_nvidia_stats] puts in the sample of the same device whenever
    that sample exists.  When the handle of the device cannot be
    obtained it answers ["Unknown"], where the loop body of
    [get_nvidia_stats] raises [NVMLError]. *)
Theorem get_gpu_name_agrees_with_sample :
  (forall w index, exists name, get_gpu_name w index = Ok name)
  /\ (forall w index stat,
        device_stat w index = Ok stat ->
        get_gpu_name w index = Ok (Stat.name stat))
  /\ (forall w index,
        nvmlDeviceGetHandleByIndex w index = None ->
        get_gpu_name w index = Ok "Unknown"%string
        /\ device_stat w index = Raise NVMLError).
Proof.
  split; [|split].
  - intros w index. unfold get_gpu_name.
    destruct (nvmlDeviceGetHandleByIndex w index) as [h|]; cbn; [|eauto].
    destruct (nvmlDeviceGetName h); cbn; eauto.
  - intros w index stat. unfold device_stat, get_gpu_name.
    destruct (nvmlDeviceGetHandleByIndex w index) as [h|]; cbn; [|discriminate].
    intros Hstat. apply read_handle_gpu_index_name in Hstat as [_ ->].
    unfold name_group. now destruct (nvmlDeviceGetName h).
  - intros w index Hh. unfold device_stat, get_gpu_name. now rewrite Hh.
Qed.

Lemma get_gpu_name_agrees_with_sample_witness :
  get_gpu_name (driver [healthy]) 0 = Ok "GPU"%string
  /\ get_gpu_name (driver [healthy]) 1 = Ok "Unknown"%string.
Proof.
  split.
  - destruct (device_stat (driver [healthy]) 0) as [stat|e] eqn:Hstat;
      [|vm_compute in Hstat; discriminate].
    rewrite (proj1 (proj2 get_gpu_name_agrees_with_sample) _ _ stat Hstat).
    vm_compute in Hstat. now injection Hstat as <-.
  - exact (proj1 (proj2 (proj2 get_gpu_name_agrees_with_sample)
                    (driver [healthy]) 1%nat eq_refl)).
Defined.

(** X9.  When the memory query answers [0 <= used <= total] with
    [total > 0], the [memory_utilization] of the sample lies between 0
    and 100. *)
Theorem memory_utilization_is_a_percentage (w : world) (i : nat) (h : handle)
    (m : mem_info) (stat : Stat.t) :
  nvmlDeviceGetHandleByIndex w i = Some h ->
  nvmlDeviceGetMemoryInfo h = Some m ->
  (0 <= used m <= total m)%Z ->
  (0 < total m)%Z ->
  device_stat w i = Ok stat ->
  0 <= Stat.memory_utilization stat <= 100.
Proof.
  intros Hh Hm Hused Htotal Hstat.
  unfold device_stat in Hstat. rewrite Hh in Hstat. cbn in Hstat.
  unfold read_handle, memory_group in Hstat. rewrite Hm in Hstat. cbn in Hstat.
  unfold py_div in Hstat. rewrite Qeq_bool_inject_Z_0 in Hstat.
  destruct (Z.eqb_spec (total m) 0) as [|_]; [lia|]. cbn in Hstat.
  destruct (utilization_group h) as [[? ?]|]; cbn in Hstat; [|discriminate].
  destruct (temperature_group h); cbn in Hstat; [|discriminate].
  destruct (power_group h) as [[? ?]|]; cbn in Hstat; [|discriminate].
  destruct (fan_group h); cbn in Hstat; [|discriminate].
  destruct (clock_group h); cbn in Hstat; [|discriminate].
  destruct (processes_group w h); cbn in Hstat; [|discriminate].
  injection Hstat as <-. cbn.
  assert (0 < inject_Z (total m)) as Hpos
      by (change 0 with (inject_Z 0); rewrite <- Zlt_Qlt; lia).
  assert (0 <= inject_Z (used m)) as Hnonneg
      by (change 0 with (inject_Z 0); rewrite <- Zle_Qle; lia).
  assert (inject_Z (used m) <= inject_Z (total m)) as Hle
      by (rewrite <- Zle_Qle; lia).
  assert (0 <= inject_Z (used m) / inject_Z (total m) <= 1) as [Hlow Hhigh].
  { split.
    - apply Qle_shift_div_l; [exact Hpos|]. lra.
    - apply Qle_shift_div_r; [exact Hpos|]. lra. }
  split; lra.
Qed.

Lemma memory_utilization_is_a_percentage_witness :
  exists stat,
    device_stat (driver [healthy]) 0 = Ok stat
    /\ 0 <= Stat.memory_utilization stat <= 100.
Proof.
  destruct (device_stat (driver [healthy]) 0) as [stat|e] eqn:Hstat;
    [|vm_compute in Hstat; discriminate].
  exists stat. split; [reflexivity|].
  apply (memory_utilization_is_a_percentage (driver [healthy]) 0 healthy
           {| total := 8192 * 1024 ^ 2; used := 2048 * 1024 ^ 2 |} stat
           eq_refl eq_refl); [cbn; lia|cbn; lia|exact Hstat].
Defined.

(** * More on the process tables *)

Lemma length_substring_0 (n : nat) (s : string) :
  (String.length (substring 0 n s) <= n)%nat.
Proof.
  revert s. induction n as [|n IH]; intros s.
  - destruct s; cbn; lia.
  - destruct s as [|c s]; cbn; [lia|]. specialize (IH s). lia.
Qed.

Lemma length_sorted_reverse {A : Type} (key : A -> Q) (l : list A) :
  length (sorted_reverse key l) = length l.
Proof. apply Permutation_length, sorted_reverse_perm. Qed.

(** X10.  The rows of a process table: there is always at least one and
    never more than 20; with no process the only row is the
    "No Processes" placeholder; with processes there is one row per
    displayed process and no placeholder; and a name in a row has at
    most 50 characters. *)
Theorem process_table_rows (processes : list Proc.t) :
  let rows := table_rows (display_processes processes) in
  (1 <= length rows <= 20)%nat
  /\ (processes = [] -> rows = [NoProcesses])
  /\ (processes <> [] ->
      length rows = Nat.min 20 (length processes) /\ ~ In NoProcesses rows)
  /\ (forall pid ty name mem,
        In (ProcRow pid ty name mem) rows -> (String.length name <= 50)%nat).
Proof.
  intros rows. subst rows. unfold display_processes.
  pose proof (length_sorted_reverse Proc.used_memory processes) as Hlen.
  set (ranked := sorted_reverse Proc.used_memory processes) in *.
  assert (length (take 20 ranked) = Nat.min 20 (length processes)) as Htake
      by (rewrite length_take; lia).
  destruct (take 20 ranked) as [|p display] eqn:Hdisplay.
  - cbn in *. assert (processes = []) as -> by (destruct processes; cbn in *; [reflexivity|lia]).
    repeat split; try lia; try congruence.
    intros pid ty name mem [[=]|[]].
  - cbn [table_rows]. rewrite length_map, Htake.
    assert (processes <> []) as Hne by (intros ->; cbn in *; lia).
    assert (0 < length processes)%nat by (destruct processes; cbn; [congruence|lia]).
    repeat split; try lia; try contradiction.
    + intros Hin. apply in_map_iff in Hin as (q & [=] & _).
    + intros pid ty name mem Hin. apply in_map_iff in Hin as (q & [= _ _ <- _] & _).
      apply length_substring_0.
Qed.

Lemma sorted_take_drop {A : Type} (R : A -> A -> Prop) (l : list A) :
  StronglySorted R l ->
  forall n x y, In x (take n l) -> In y (drop n l) -> R x y.
Proof.
  induction 1 as [|z l Hsorted IH Hz]; intros n x y Hx Hy.
  - now rewrite take_nil in Hx.
  - destruct n as [|n]; [contradiction|]. cbn in Hx, Hy.
    destruct Hx as [<-|Hx].
    + rewrite List.Forall_forall in Hz. apply Hz.
      apply list_elem_of_In. apply list_elem_of_In in Hy.
      rewrite <- (take_drop n l). apply elem_of_app. now right.
    + now apply (IH n).
Qed.

(** X11.  The processes displayed are the largest: the displayed ones
    and the ones left out are together the processes of the sample,
    and no process left out uses more memory than a displayed one. *)
Theorem displayed_processes_are_the_largest (processes : list Proc.t) :
  let left_out := drop 20 (sorted_reverse Proc.used_memory processes) in
  Permutation (display_processes processes ++ left_out) processes
  /\ forall p q,
       In p (display_processes processes) -> In q left_out ->
       Proc.used_memory q <= Proc.used_memory p.
Proof.
  intros left_out. subst left_out. unfold display_processes. split.
  - rewrite take_drop. apply sorted_reverse_perm.
  - intros p q Hp Hq.
    exact (sorted_take_drop (descending Proc.used_memory) _
             (sorted_reverse_sorted Proc.used_memory processes) 20 p q Hp Hq).
Qed.

Lemma process_tables_loop_imap (tabs : nat) (stats : list Stat.t) :
  forall i,
    process_tables_loop tabs i stats =
    imap (fun k stat =>
            ProcessTable (i + k)
              (table_rows (display_processes (Stat.processes stat))))
         (take (tabs - i) stats).
Proof.
  induction stats as [|stat rest IH]; intros i; cbn [process_tables_loop].
  - now rewrite take_nil.
  - rewrite IH. destruct (Nat.leb_spec tabs i) as [Hskip|Hshow].
    + replace (tabs - S i)%nat with 0%nat by lia.
      replace (tabs - i)%nat with 0%nat by lia. reflexivity.
    + replace (tabs - i)%nat with (S (tabs - S i)) by lia. cbn.
      rewrite Nat.add_0_r. f_equal. apply imap_ext. intros k stat' _. cbn.
      f_equal. lia.
Qed.

(** X12.  [update_process_tables] fills the table of tab [i] with the
    rows of the sample at position [i], for the positions that have a
    tab, in order; samples beyond the number of tabs are passed over. *)
Theorem process_tables_follow_the_samples (self : GPU_Monitor_App)
    (stats : list Stat.t) :
  update_process_tables self stats =
  imap (fun i stat =>
          ProcessTable i (table_rows (display_processes (Stat.processes stat))))
       (take (device_count self) stats).
Proof.
  unfold update_process_tables. rewrite process_tables_loop_imap.
  now rewrite Nat.sub_0_r.
Qed.

(** * More on the history store *)

Lemma update_dashboard_graphs_first (stats : list Stat.t)
    (data_buffers : list Buffer.t) (first : Buffer.t) :
  length stats = length data_buffers ->
  data_buffers !! 0%nat = Some first ->
  let r := update_dashboard_graphs stats data_buffers in
  length r.1.1 = length data_buffers
  /\ forall i stat buffer,
       stats !! i = Some stat -> data_buffers !! i = Some buffer ->
       r.1.1 !! i = Some (append_sample (length (Buffer.time first)) stat buffer).
Proof.
  intros Hlen Hfirst. unfold update_dashboard_graphs. rewrite Hfirst.
  destruct (graphs_loop_lookup (length (Buffer.time first)) stats 0 data_buffers)
    as (_ & Hlength & Hlookup); [cbn; lia|].
  cbn. split; [exact Hlength|]. intros i stat buffer Hstat Hbuffer.
  rewrite Hlookup. destruct (decide (0 <= i)%nat); [|lia].
  now rewrite Nat.sub_0_r, Hstat, Hbuffer.
Qed.

Lemma length_recent_eq {A : Type} (n : nat) (l : list A) :
  length (recent n l) = Nat.min (length l) n.
Proof. unfold recent. rewrite length_drop. lia. Qed.

Lemma graph_ticks_time (n : nat) (ticks : list (list Stat.t)) :
  Forall (fun stats => length stats = n) ticks ->
  forall (k : nat) (data_buffers : list Buffer.t),
    length data_buffers = n ->
    (forall i, (i < n)%nat ->
       exists b, data_buffers !! i = Some b
                 /\ Buffer.time b = recent buffer_size (map stamp (seq 0 k))) ->
    forall i, (i < n)%nat ->
      exists b, graph_ticks ticks data_buffers !! i = Some b
                /\ Buffer.time b =
                   recent buffer_size (map stamp (seq 0 (k + length ticks))).
Proof.
  induction 1 as [|stats rest Hstats _ IH]; intros k bufs Hn Hinv i Hi.
  - cbn. rewrite Nat.add_0_r. now apply Hinv.
  - cbn [graph_ticks length].
    replace (k + S (length rest))%nat with (S k + length rest)%nat by lia.
    destruct (Hinv 0%nat ltac:(lia)) as (first & Hfirst & Htime).
    destruct (update_dashboard_graphs_first stats bufs first ltac:(lia) Hfirst)
      as [Hlength Hnew].
    cbn zeta in Hlength, Hnew.
    assert (length (Buffer.time first) = stamp k) as Hstamp.
    { rewrite Htime, length_recent_eq, length_map, length_seq. reflexivity. }
    rewrite Hstamp in Hnew.
    apply IH; [lia| |exact Hi].
    intros j Hj. destruct (Hinv j Hj) as (b & Hb & Hbtime).
    destruct (lookup_lt_is_Some_2 stats j) as [stat Hstat]; [lia|].
    exists (append_sample (stamp k) stat b). split; [now apply Hnew|].
    cbn [append_sample Buffer.time].
    rewrite deque_append_recent, Hbtime by (rewrite Hbtime; apply length_recent).
    rewrite recent_app_recent, seq_S, map_app. reflexivity.
Qed.

(** X13.  The timestamps of a series: with one sample per device on
    every tick, the tick numbered [t] from 0 is stamped [min t 60], for
    every device, and the [time] deque holds the last 60 of these
    stamps.  The stamps are 0, 1, ..., 59 on the first 60 ticks and 60
    on every tick after. *)
Theorem timestamps_are_min_tick_60 (n : nat) (ticks : list (list Stat.t)) (i : nat) :
  Forall (fun stats => length stats = n) ticks ->
  (i < n)%nat ->
  exists buffer,
    graph_ticks ticks (replicate n Buffer.init) !! i = Some buffer
    /\ Buffer.time buffer =
       drop (length ticks - 60) (map (fun t => Nat.min t 60) (seq 0 (length ticks))).
Proof.
  intros Hticks Hi.
  destruct (graph_ticks_time n ticks Hticks 0 (replicate n Buffer.init)) with (i := i)
    as (buffer & Hlookup & Htime).
  - apply length_replicate.
  - intros j Hj. exists Buffer.init. split; [now apply lookup_replicate_2|reflexivity].
  - exact Hi.
  - exists buffer. split; [exact Hlookup|].
    rewrite Htime. unfold recent, buffer_size. cbn [Nat.add].
    now rewrite length_map, length_seq.
Qed.

Lemma timestamps_are_min_tick_60_witness :
  exists buffer,
    graph_ticks counting_up (replicate 1 Buffer.init) !! 0%nat = Some buffer
    /\ Buffer.time buffer = seq 3 57 ++ [60; 60; 60]%nat.
Proof.
  destruct (timestamps_are_min_tick_60 1 counting_up 0)
    as (buffer & Hlookup & Htime).
  - vm_compute. repeat constructor.
  - lia.
  - exists buffer. split; [exact Hlookup|]. rewrite Htime. reflexivity.
Defined.

Section Buffer_invariant.
Variable P : Buffer.t -> Prop.
Hypothesis P_append : forall current_time stat b, P b -> P (append_sample current_time stat b).

Lemma graphs_loop_Forall (current_time : nat) (stats : list Stat.t) :
  forall (i : nat) (data_buffers : list Buffer.t),
    Forall P data_buffers ->
    Forall P (graphs_loop current_time i stats data_buffers).1.1
    /\ length (graphs_loop current_time i stats data_buffers).1.1
       = length data_buffers.
Proof.
  induction stats as [|stat rest IH]; intros i bufs Hall; cbn; [now split|].
  destruct (bufs !! i) as [buffer|] eqn:Hbuffer; cbn; [|now split].
  specialize (IH (S i) (<[i:=append_sample current_time stat buffer]> bufs)).
  destruct (graphs_loop current_time (S i) rest _) as [[bufs' evs] raised].
  cbn in *. rewrite length_insert in IH. apply IH.
  apply Forall_insert; [exact Hall|]. apply P_append.
  rewrite Forall_lookup in Hall. exact (Hall i buffer Hbuffer).
Qed.

Lemma update_stats_Forall (w : world) (self : GPU_Monitor_App) :
  Forall P (data_buffers self) ->
  Forall P (data_buffers (update_stats w self).1)
  /\ length (data_buffers (update_stats w self).1) = length (data_buffers self)
  /\ device_count (update_stats w self).1 = device_count self
  /\ thresholds (update_stats w self).1 = thresholds self
  /\ sound_alert (update_stats w self).1 = sound_alert self.
Proof.
  intros Hall. unfold update_stats.
  destruct (get_nvidia_stats w (device_count self)) as [stats|e]; [|now repeat split].
  destruct (check_alerts_events _ _ stats _) as [flags alert_evs].
  unfold update_dashboard_graphs.
  destruct (data_buffers self !! 0%nat) as [first|]; [|now repeat split].
  destruct (graphs_loop_Forall (length (Buffer.time first)) stats 0
              (data_buffers self) Hall) as [HP Hlen].
  destruct (graphs_loop _ 0 stats (data_buffers self)) as [[bufs evs] raised].
  now repeat split.
Qed.

Lemma run_Forall (ws : list world) :
  forall self : GPU_Monitor_App,
    Forall P (data_buffers self) ->
    Forall P (data_buffers (run ws self).1)
    /\ length (data_buffers (run ws self).1) = length (data_buffers self)
    /\ device_count (run ws self).1 = device_count self
    /\ thresholds (run ws self).1 = thresholds self
    /\ sound_alert (run ws self).1 = sound_alert self.
Proof.
  induction ws as [|w rest IH]; intros self Hall; [now repeat split|].
  cbn [run].
  destruct (update_stats_Forall w self Hall) as (HP & Hlen & Hn & Hthr & Hsnd).
  destruct (update_stats w self) as [self' evs]. cbn [fst] in *.
  destruct (IH self' HP) as (HP' & Hlen' & Hn' & Hthr' & Hsnd').
  destruct (run rest self') as [self'' later]. cbn [fst] in *.
  repeat split; congruence.
Qed.
End Buffer_invariant.

Lemma length_deque_append_eq {A : Type} (maxlen : nat) (d : list A) (x : A) :
  length (deque_append maxlen d x) =
  if (maxlen <? length d + 1)%nat then length d else (length d + 1)%nat.
Proof.
  unfold deque_append. rewrite length_app. cbn [length].
  destruct (maxlen <? length d + 1)%nat; [|now rewrite length_app].
  rewrite length_drop, length_app. cbn. lia.
Qed.

(** X14.  Whatever the driver answers, tick after tick, from startup:
    there is always one buffer per device, and no deque of any buffer
    ever holds more than 60 items; the thresholds, the sound switch and
    the device count are those of startup. *)
Theorem buffers_stay_bounded (ws : list world) (thresholds0 : Thresholds.t)
    (sound : bool) (n : nat) :
  let self := (run ws (init thresholds0 sound n)).1 in
  length (data_buffers self) = n
  /\ Forall (fun b => (length (Buffer.time b) <= 60)%nat
                      /\ forall key, (length (Buffer.series key b) <= 60)%nat)
            (data_buffers self)
  /\ device_count self = n /\ thresholds self = thresholds0
  /\ sound_alert self = sound.
Proof.
  intros self. subst self.
  destruct (run_Forall
              (fun b => (length (Buffer.time b) <= 60)%nat
                        /\ forall key, (length (Buffer.series key b) <= 60)%nat)
              ) with (ws := ws) (self := init thresholds0 sound n)
    as (HP & Hlen & Hn & Hthr & Hsnd).
  - intros current_time stat b [Htime Hseries]. split.
    + cbn. now apply length_deque_append.
    + intros key. rewrite series_append_sample. now apply length_deque_append.
  - cbn. apply Forall_replicate. split; [cbn; lia|]. intros key. destruct key; cbn; lia.
  - cbn in Hlen. rewrite length_replicate in Hlen. now repeat split.
Qed.

(** X15.  Whatever the driver answers, from startup, the five deques of
    a buffer always have the same length: every series has as many
    values as the [time] deque has stamps, as the four [setData] calls
    need. *)
Theorem series_and_time_have_equal_lengths (ws : list world)
    (thresholds0 : Thresholds.t) (sound : bool) (n : nat) :
  Forall (fun b => forall key,
              length (Buffer.series key b) = length (Buffer.time b))
         (data_buffers (run ws (init thresholds0 sound n)).1).
Proof.
  apply run_Forall.
  - intros current_time stat b Hb key.
    rewrite series_append_sample. cbn [append_sample Buffer.time].
    now rewrite !length_deque_append_eq, Hb.
  - cbn. apply Forall_replicate. intros key. now destruct key.
Qed.

(** X16.  With no device, every tick takes the empty sample, sets an
    empty statistics table and ends on the [IndexError] of
    [self.data_buffers[0]], which is printed; the state never changes. *)
Theorem no_device_every_tick_fails (ws : list world) (thresholds0 : Thresholds.t)
    (sound : bool) :
  run ws (init thresholds0 sound 0) =
  (init thresholds0 sound 0,
   map (fun _ => [Sampled []; StatsTable []; ErrorPrinted IndexError]) ws).
Proof.
  induction ws as [|w rest IH]; [reflexivity|].
  cbn [run map].
  change (update_stats w (init thresholds0 sound 0))
    with (init thresholds0 sound 0,
          [Sampled []; StatsTable []; ErrorPrinted IndexError]).
  lazy beta iota zeta. now rewrite IH.
Qed.

(** * Settings and the sound effect *)

Lemma usable_iff (isfile : string -> bool) (file : option string) :
  usable isfile file = true <->
  exists f, file = Some f /\ f <> ""%string /\ isfile f = true.
Proof.
  destruct file as [f|]; cbn.
  - rewrite andb_true_iff, negb_true_iff, String.eqb_neq. split.
    + intros [Hne Hfile]. eauto.
    + intros (f' & [= <-] & Hne & Hfile). now split.
  - split; [discriminate|]. now intros (f & [=] & _).
Qed.

(** The sound effect that a request for sound alerts ends with, given
    the chosen file: the chosen file when it is named and exists,
    otherwise [beep.wav] when it exists, otherwise sound alerts are
    switched off with a warning; without a request there is no sound
    effect. *)
Lemma sound_choice (isfile : string -> bool) (default_beep : string)
    (requested : bool) (file : option string) (r : Settings.t * list message)
    (saved : list message) :
  (if requested then
     if usable isfile file
     then Settings.sound_alert r.1 = true /\ Settings.sound_effect r.1 = file
          /\ r.2 = saved
     else if isfile default_beep
     then Settings.sound_alert r.1 = true
          /\ Settings.sound_effect r.1 = Some default_beep /\ r.2 = saved
     else Settings.sound_alert r.1 = false /\ Settings.sound_effect r.1 = None
          /\ r.2 = Warning "Sound File Missing" :: saved
   else Settings.sound_alert r.1 = false /\ Settings.sound_effect r.1 = None
        /\ r.2 = saved) ->
  (requested = false ->
   Settings.sound_alert r.1 = false /\ Settings.sound_effect r.1 = None
   /\ r.2 = saved)
  /\ (requested = true ->
      forall f, file = Some f -> f <> ""%string -> isfile f = true ->
      Settings.sound_alert r.1 = true /\ Settings.sound_effect r.1 = Some f
      /\ r.2 = saved)
  /\ (requested = true ->
      (forall f, file = Some f -> f = ""%string \/ isfile f = false) ->
      isfile default_beep = true ->
      Settings.sound_alert r.1 = true
      /\ Settings.sound_effect r.1 = Some default_beep /\ r.2 = saved)
  /\ (requested = true ->
      (forall f, file = Some f -> f = ""%string \/ isfile f = false) ->
      isfile default_beep = false ->
      Settings.sound_alert r.1 = false /\ Settings.sound_effect r.1 = None
      /\ r.2 = Warning "Sound File Missing" :: saved).
Proof.
  intros H.
  assert ((forall f, file = Some f -> f = ""%string \/ isfile f = false) ->
          usable isfile file = false) as Hunusable.
  { intros Hbad. destruct (usable isfile file) eqn:Hfile; [|reflexivity].
    apply usable_iff in Hfile as (f & Hf & Hne & Hexists).
    destruct (Hbad f Hf); congruence. }
  split; [|split; [|split]].
  - intros ->. exact H.
  - intros -> f Hf Hne Hexists.
    assert (usable isfile file = true) as Hfile
        by (apply usable_iff; exists f; now repeat split).
    rewrite Hfile in H. now rewrite <- Hf.
  - intros -> Hbad Hbeep. now rewrite (Hunusable Hbad), Hbeep in H.
  - intros -> Hbad Hbeep. now rewrite (Hunusable Hbad), Hbeep in H.
Qed.

(** X17.  Sound alerts are on only with a loaded sound effect: after
    [init_sound_effect], and after every [save_settings] that follows,
    [sound_alert] is true exactly when [sound_effect] is set, and its
    source is then a file that exists.  Which file: when sound alerts
    are asked for (the [sound_alert] given to [init_sound_effect], the
    checkbox for [save_settings]), the source is the chosen file when
    that file is named and exists; it is [beep.wav] when the chosen file
    is absent, empty or missing and [beep.wav] exists; and when neither
    exists sound alerts are switched off, no sound effect is kept and
    the "Sound File Missing" warning is shown.  When sound alerts are
    not asked for there is no sound effect. *)
Theorem sound_alert_needs_a_sound_file (isfile : string -> bool)
    (default_beep : string) (float : string -> option Q) :
  (forall self, sound_ready isfile (init_sound_effect isfile default_beep self).1)
  /\ (forall f self,
        sound_ready isfile self ->
        sound_ready isfile (save_settings isfile default_beep float f self).1)
  /\ (forall self,
        let r := init_sound_effect isfile default_beep self in
        let requested := Settings.sound_alert self in
        let file := Settings.sound_file self in
        (requested = false ->
         Settings.sound_alert r.1 = false /\ Settings.sound_effect r.1 = None
         /\ r.2 = [])
        /\ (requested = true ->
            forall f, file = Some f -> f <> ""%string -> isfile f = true ->
            Settings.sound_alert r.1 = true /\ Settings.sound_effect r.1 = Some f
            /\ r.2 = [])
        /\ (requested = true ->
            (forall f, file = Some f -> f = ""%string \/ isfile f = false) ->
            isfile default_beep = true ->
            Settings.sound_alert r.1 = true
            /\ Settings.sound_effect r.1 = Some default_beep /\ r.2 = [])
        /\ (requested = true ->
            (forall f, file = Some f -> f = ""%string \/ isfile f = false) ->
            isfile default_beep = false ->
            Settings.sound_alert r.1 = false /\ Settings.sound_effect r.1 = None
            /\ r.2 = [Warning "Sound File Missing"]))
  /\ (forall f self temp util mem_util power,
        float (temp_input f) = Some temp -> float (util_input f) = Some util ->
        float (mem_util_input f) = Some mem_util ->
        float (power_input f) = Some power ->
        let r := save_settings isfile default_beep float f self in
        let requested := sound_checkbox f in
        let file := if requested then Some (sound_file_input f) else None in
        (requested = false ->
         Settings.sound_alert r.1 = false /\ Settings.sound_effect r.1 = None
         /\ r.2 = [Information "Settings Saved"])
        /\ (requested = true ->
            forall chosen, file = Some chosen -> chosen <> ""%string ->
            isfile chosen = true ->
            Settings.sound_alert r.1 = true
            /\ Settings.sound_effect r.1 = Some chosen
            /\ r.2 = [Information "Settings Saved"])
        /\ (requested = true ->
            (forall chosen, file = Some chosen ->
                            chosen = ""%string \/ isfile chosen = false) ->
            isfile default_beep = true ->
            Settings.sound_alert r.1 = true
            /\ Settings.sound_effect r.1 = Some default_beep
            /\ r.2 = [Information "Settings Saved"])
        /\ (requested = true ->
            (forall chosen, file = Some chosen ->
                            chosen = ""%string \/ isfile chosen = false) ->
            isfile default_beep = false ->
            Settings.sound_alert r.1 = false /\ Settings.sound_effect r.1 = None
            /\ r.2 = [Warning "Sound File Missing"; Information "Settings Saved"])).
Proof.
  assert (forall file, usable isfile file = true ->
                       exists f, file = Some f /\ isfile f = true) as Husable.
  { intros [f|]; cbn; [|discriminate]. intros H.
    apply andb_true_iff in H as [_ H]. eauto. }
  split; [|split; [|split]].
  - intros self. unfold init_sound_effect, sound_ready.
    destruct (Settings.sound_alert self); cbn; [|reflexivity].
    destruct (usable isfile (Settings.sound_file self)) eqn:Hfile; cbn.
    + now apply Husable.
    + destruct (isfile default_beep) eqn:Hbeep; cbn; eauto.
  - intros f self Hready. unfold save_settings.
    destruct (float (temp_input f)), (float (util_input f)),
      (float (mem_util_input f)), (float (power_input f)); try exact Hready.
    unfold sound_ready.
    destruct (sound_checkbox f); cbn; [|reflexivity].
    destruct (negb (sound_file_input f =? "")%string && isfile (sound_file_input f))
      eqn:Hfile; cbn.
    + apply andb_true_iff in Hfile as [_ Hfile]. eauto.
    + destruct (isfile default_beep) eqn:Hbeep; cbn; eauto.
  - intros self r requested file.
    apply (sound_choice isfile default_beep requested file r []).
    subst r requested file. unfold init_sound_effect.
    destruct (Settings.sound_alert self); [|now repeat split].
    destruct (usable isfile (Settings.sound_file self)); [now repeat split|].
    destruct (isfile default_beep); now repeat split.
  - intros f self temp util mem_util power Htemp Hutil Hmem Hpower r requested file.
    apply (sound_choice isfile default_beep requested file r
             [Information "Settings Saved"]).
    subst r requested file. unfold save_settings.
    rewrite Htemp, Hutil, Hmem, Hpower.
    destruct (sound_checkbox f); [|now repeat split].
    destruct (usable isfile (Some (sound_file_input f))); [now repeat split|].
    destruct (isfile default_beep); now repeat split.
Qed.

(** Sound asked for at startup with a file that does not exist, while
    [beep.wav] exists: the sound effect is [beep.wav]. *)
Lemma sound_alert_needs_a_sound_file_witness :
  let isfile (f : string) : bool := (f =? "beep.wav")%string in
  let self := {| Settings.thresholds := default_thresholds;
                 Settings.sound_alert := true;
                 Settings.sound_file := Some "missing.wav"%string;
                 Settings.sound_effect := None |} in
  let r := init_sound_effect isfile "beep.wav" self in
  Settings.sound_alert r.1 = true
  /\ Settings.sound_effect r.1 = Some "beep.wav"%string /\ r.2 = [].
Proof.
  intros isfile self r.
  destruct (proj1 (proj2 (proj2 (sound_alert_needs_a_sound_file
                                   isfile "beep.wav" (fun _ => None)))) self)
    as (_ & _ & Hbeep & _).
  apply Hbeep; [reflexivity| |reflexivity].
  intros f [= <-]. now right.
Defined.

(** X18.  [save_settings] is all or nothing on the thresholds.  If any
    of the four fields is not a number, nothing is changed and the only
    message is the "Invalid Input" warning, even when the fields before
    it were numbers.  If the four fields are numbers, the four
    thresholds are replaced by them, also when the sound file is missing
    and sound alerts are switched off with a warning, and the last
    message is "Settings Saved". *)
Theorem save_settings_all_or_nothing (isfile : string -> bool)
    (default_beep : string) (float : string -> option Q) (f : form)
    (self : Settings.t) :
  let r := save_settings isfile default_beep float f self in
  (float (temp_input f) = None \/ float (util_input f) = None
   \/ float (mem_util_input f) = None \/ float (power_input f) = None ->
   r = (self, [Warning "Invalid Input"]))
  /\ (forall temp util mem_util power,
        float (temp_input f) = Some temp -> float (util_input f) = Some util ->
        float (mem_util_input f) = Some mem_util ->
        float (power_input f) = Some power ->
        Settings.thresholds r.1 =
          {| Thresholds.temperature := temp; Thresholds.utilization := util;
             Thresholds.memory_utilization := mem_util;
             Thresholds.power_draw := power |}
        /\ last r.2 = Some (Information "Settings Saved")
        /\ Settings.sound_file r.1 =
           (if sound_checkbox f then Some (sound_file_input f) else None)).
Proof.
  intros r. subst r. unfold save_settings. split.
  - intros [H|[H|[H|H]]]; rewrite H;
      repeat match goal with
             | |- context [float ?x] => destruct (float x)
             end; reflexivity.
  - intros temp util mem_util power -> -> -> ->.
    destruct (sound_checkbox f); cbn; [|now repeat split].
    destruct (negb _ && _); cbn; [now repeat split|].
    destruct (isfile default_beep); now repeat split.
Qed.

(** A form with 85 in the temperature field, the other fields numbers,
    sound asked for with a file that does not exist and no [beep.wav]. *)
Lemma save_settings_all_or_nothing_witness :
  let float (s : string) : option Q :=
    if (s =? "85")%string then Some 85
    else if (s =? "90")%string then Some 90
    else if (s =? "250")%string then Some 250 else None in
  let f := {| temp_input := "85"; util_input := "90"; mem_util_input := "90";
              power_input := "250"; sound_checkbox := true;
              sound_file_input := "missing.wav" |} in
  let self := {| Settings.thresholds := default_thresholds;
                 Settings.sound_alert := false; Settings.sound_file := None;
                 Settings.sound_effect := None |} in
  let r := save_settings (fun _ => false) "beep.wav" float f self in
  Thresholds.temperature (Settings.thresholds r.1) = 85
  /\ Settings.sound_alert r.1 = false
  /\ r.2 = [Warning "Sound File Missing"; Information "Settings Saved"].
Proof.
  intros float f self r.
  destruct (proj2 (save_settings_all_or_nothing (fun _ => false) "beep.wav"
                     float f self) 85 90 90 250 eq_refl eq_refl eq_refl eq_refl)
    as (Hthr & _ & _).
  fold r in Hthr. rewrite Hthr. repeat split.
Defined.

(** * A sustained breach *)

Lemma py_gt_above_threshold (v T : Q) : T < v -> py_gt v T = true.
Proof.
  intros Hlt. unfold py_gt. destruct (Qle_bool v T) eqn:Hle; [|reflexivity].
  apply Qle_bool_iff in Hle. now apply Qlt_not_le in Hlt.
Qed.

Lemma rising_edges_armed (key : metric) (T : Q) (samples : list Stat.t) :
  Forall (fun stat => T < StatMetric.get key stat) samples ->
  rising_edges key T true samples = [].
Proof.
  induction 1 as [|stat rest Hstat _ IH]; [reflexivity|].
  cbn [rising_edges]. rewrite (py_gt_above_threshold _ _ Hstat). cbn.
  exact IH.
Qed.

(** X19.  A breach that lasts alerts once: from a clear flag, a list of
    samples that are all above the threshold of a metric raises one
    alert for that metric, for the first sample, and none for the
    samples after it, whichever devices they come from. *)
Theorem sustained_breach_alerts_once (thresholds : Thresholds.t) (key : metric)
    (first : Stat.t) (rest : list Stat.t) (s : AlertStates.t) :
  AlertStates.get key s = false ->
  Forall (fun stat => Thresholds.get key thresholds < StatMetric.get key stat)
         (first :: rest) ->
  about key (check_alerts thresholds (first :: rest) s).2 =
  [{| alert_gpu := Stat.gpu_index first; alert_metric := key;
      alert_value := StatMetric.get key first;
      alert_threshold := Thresholds.get key thresholds |}].
Proof.
  intros Hclear Hall. inversion Hall as [|? ? Hfirst Hrest]; subst.
  rewrite (proj1 (check_alerts_rising_edges thresholds key (first :: rest) s)).
  cbn [rising_edges]. rewrite Hclear, (py_gt_above_threshold _ _ Hfirst). cbn.
  now rewrite rising_edges_armed.
Qed.

Lemma sustained_breach_alerts_once_witness :
  let hot i := with_value Temperature 85 (idle i) in
  about Temperature
        (check_alerts default_thresholds [hot 0%nat; hot 1%nat; hot 0%nat]
                      AlertStates.init).2
  = [{| alert_gpu := 0; alert_metric := Temperature;
        alert_value := 85; alert_threshold := 80 |}].
Proof.
  intros hot.
  apply (sustained_breach_alerts_once default_thresholds Temperature
           (hot 0%nat) [hot 1%nat; hot 0%nat] AlertStates.init eq_refl).
  repeat constructor.
Defined.

(** Two ticks on one device, the second at 85 degrees: the notifications
    of the timer are the alerts of the alert engine on the two samples. *)
Lemma run_components_witness :
  let ws := [driver [healthy]; driver [with_temperature (Some 85%Z) healthy]] in
  let self := init default_thresholds true 1 in
  exists ticks,
    map notifications (run ws self).2
    = alert_ticks default_thresholds ticks AlertStates.init
    /\ data_buffers (run ws self).1 = graph_ticks ticks (replicate 1 Buffer.init)
    /\ length ticks = 2%nat.
Proof.
  intros ws self.
  destruct (get_nvidia_stats (driver [healthy]) 1) as [t1|e] eqn:H1;
    [|vm_compute in H1; discriminate].
  destruct (get_nvidia_stats (driver [with_temperature (Some 85%Z) healthy]) 1)
    as [t2|e] eqn:H2; [|vm_compute in H2; discriminate].
  exists [t1; t2].
  destruct (run_components ws [t1; t2] self) as [Halerts Hbufs].
  - repeat constructor; assumption.
  - repeat split; assumption.
Defined.
